(** * Authentication and authorization layer of the civic-engagement backend

    A shallow embedding of [auth.ts], [auth-routes.ts], the user part of
    [storage.ts], the auth schemas of [shared/schema.ts] and the route table of
    [routes.ts], followed by the properties proved about them.

    Conventions.
    - A JavaScript string is a [string]; one character stands for one UTF-16
      code unit, so [String.length] is the JavaScript [length].
    - A JavaScript integer [number] (user ids, timestamps) is a [Z].
    - Effects (database, clock, randomness, [console.error]) are threaded
      through an explicit [World]; a JavaScript [throw] is the [Throw] outcome
      of the monad [M]. *)

From Stdlib Require Import ZArith List String Ascii Bool Lia.
From Stdlib Require Import DecimalString DecimalZ DecimalN DecimalPos.
From Stdlib Require Import Permutation Sorted.
Import ListNotations.
Open Scope string_scope.
Open Scope Z_scope.

(** ** JavaScript string helpers *)

Module JsString.

(** [s.split(sep)] for a one-character separator: never the empty list. *)
Fixpoint split (sep : ascii) (s : string) : list string :=
  match s with
  | EmptyString => [EmptyString]
  | String c r =>
      if Ascii.eqb c sep then EmptyString :: split sep r
      else match split sep r with
           | h :: t => String c h :: t
           | [] => [String c EmptyString]
           end
  end.

(** [parts.join(sep)]. *)
Fixpoint join (sep : ascii) (parts : list string) : string :=
  match parts with
  | [] => EmptyString
  | [p] => p
  | p :: rest => p ++ String sep (join sep rest)
  end.

(** [true] when [c] does not occur in [s]. *)
Fixpoint lacks (c : ascii) (s : string) : bool :=
  match s with
  | EmptyString => true
  | String a r => negb (Ascii.eqb a c) && lacks c r
  end.

Definition is_digit (c : ascii) : bool :=
  let n := nat_of_ascii c in (Nat.leb 48 n && Nat.leb n 57)%bool.

Fixpoint all_digits (s : string) : bool :=
  match s with
  | EmptyString => true
  | String a r => is_digit a && all_digits r
  end.

(** Decimal rendering of an integer, as [String(n)] does for a safe integer. *)
Definition dec (z : Z) : string := NilZero.string_of_int (Z.to_int z).

(** Reading a decimal integer back; [None] when [s] is not one. *)
Definition undec (s : string) : option Z :=
  option_map Z.of_int (NilZero.int_of_string s).

End JsString.

(** ** Data model ([shared/schema.ts]) *)

(** A row of the [users] table, [typeof users.$inferSelect]. *)
Record User := mkUser {
  user_id : Z;
  user_fullName : string;
  user_email : string;
  user_phone : string;
  user_password : string;
  user_isAdmin : bool;
  user_createdAt : option Z;
  user_updatedAt : option Z
}.

(** [InsertUser]: the insert schema with [id], [createdAt], [updatedAt]
    omitted; [isAdmin] has a column default and is optional. *)
Record InsertUser := mkInsertUser {
  ins_fullName : string;
  ins_email : string;
  ins_phone : string;
  ins_password : string;
  ins_isAdmin : option bool
}.

(** [RegisterUser], the output type of [registerUserSchema]. *)
Record RegisterUser := mkRegisterUser {
  reg_fullName : string;
  reg_email : string;
  reg_phone : string;
  reg_password : string;
  reg_confirmPassword : string
}.

(** [LoginCredentials], the output type of [loginSchema]. *)
Record LoginCredentials := mkLoginCredentials {
  cred_email : string;
  cred_password : string
}.

(** A parsed JSON request body. *)
#[local] Set Warnings "-register-all".
Inductive JsValue :=
| JUndefined
| JNull
| JBool (b : bool)
| JNumber (n : Z)
| JString (s : string)
| JArray (items : list JsValue)
| JObject (fields : list (string * JsValue)).
#[local] Set Warnings "register-all".

(** ** Zod issues and thrown values *)

Inductive IssueCode := invalid_type | invalid_string | too_small | custom.

Record ZodIssue := mkIssue {
  issue_code : IssueCode;
  issue_path : list string;
  issue_message : string
}.

(** What a [throw] can carry: a [ZodError], any other [Error] with its
    message, or a value that is not an [Error] instance. *)
Inductive Thrown :=
| ZodError (errors : list ZodIssue)
| JsError (message : string)
| NonError (value : string).

(** ** The world a request handler runs in *)

(** The [users] table with its [serial] sequence.  [db_fault], when set, is
    the message of the [Error] every query rejects with (connection loss). *)
Record Db := mkDb {
  users : list User;
  users_id_seq : Z;
  db_fault : option string
}.

(** Calls whose cost or output is observable outside the handler. *)
Inductive Event :=
| EvQuery (name : string)
| EvBcryptHash
| EvBcryptCompare
| EvConsoleError (label : string) (err : Thrown).

Record World := mkWorld {
  db : Db;
  now_ms : Z;
  seed : N;
  trace : list Event
}.

Definition set_db (d : Db) (w : World) : World :=
  mkWorld d (now_ms w) (seed w) (trace w).

Definition log_event (e : Event) (w : World) : World :=
  mkWorld (db w) (now_ms w) (seed w) (trace w ++ [e])%list.

(** ** The handler monad: state plus exceptions *)

Inductive Outcome (A : Type) :=
| Ok (a : A)
| Throw (e : Thrown).
Arguments Ok {A} a.
Arguments Throw {A} e.

Definition M (A : Type) : Type := World -> Outcome A * World.

Definition ret {A} (a : A) : M A := fun w => (Ok a, w).

Definition bind {A B} (m : M A) (k : A -> M B) : M B :=
  fun w => match m w with
           | (Ok a, w') => k a w'
           | (Throw e, w') => (Throw e, w')
           end.

Definition throw {A} (e : Thrown) : M A := fun w => (Throw e, w).

(** [try { m } catch (error) { h error }]. *)
Definition try_catch {A} (m : M A) (h : Thrown -> M A) : M A :=
  fun w => match m w with
           | (Ok a, w') => (Ok a, w')
           | (Throw e, w') => h e w'
           end.

Definition emit (e : Event) : M unit := fun w => (Ok tt, log_event e w).

Definition get_world : M World := fun w => (Ok w, w).

Notation "x <- m ;; k" := (bind m (fun x => k))
  (at level 61, m at next level, right associativity).
Notation "m ;;; k" := (bind m (fun _ => k))
  (at level 61, right associativity).

(** [console.error(label, error)]. *)
Definition console_error (label : string) (e : Thrown) : M unit :=
  emit (EvConsoleError label e).

(** ** Requests, responses and middleware *)

(** The parts of an Express request the code reads: [req.cookies.token],
    [req.body], and [req.user], which [isAuthenticated] writes. *)
Record Request := mkRequest {
  cookie_token : option string;
  req_body : JsValue;
  req_user : option User
}.

Record CookieOptions := mkCookieOptions {
  httpOnly : bool;
  secure : bool;
  maxAge : Z
}.

Inductive CookieOp :=
| SetCookie (name value : string) (options : CookieOptions)
| ClearCookie (name : string).

(** The JSON bodies the auth endpoints send. *)
Inductive Body :=
| BMessage (message : string)
| BErrors (message : string) (errors : list ZodIssue)
| BUserField (user : User)
| BUser (user : option User)
| BIsAdmin (flag : bool).

Record Response := mkResponse {
  status : Z;
  set_cookies : list CookieOp;
  body : Body
}.

(** [res.status(code).json({ message })] *)
Definition json_message (code : Z) (message : string) : Response :=
  mkResponse code [] (BMessage message).

(** A middleware either ends the request with a response or calls [next()],
    handing on the request, possibly changed. *)
Inductive MwResult :=
| Respond (r : Response)
| Next (req : Request).

(** The middleware functions routes are registered with. *)
Inductive Middleware :=
| IsAuthenticated
| IsAdmin
| Upload (what : string).

(** ** The platform: process environment and third-party libraries *)

Inductive Alg := HS256 | HS384 | HS512.

(** What the code takes from outside the repository and this development
    does not look into: the keyed MAC behind [jsonwebtoken], [bcrypt], the
    salt generator, zod's e-mail pattern, the [multer] upload middleware and
    the process environment. *)
Class Platform := {
  hmac : Alg -> string -> string -> N;
  bcrypt_hash : string -> Z -> string -> string;
  bcrypt_compare : string -> string -> bool;
  gen_salt : N -> string;
  is_email : string -> bool;
  multer : string -> Request -> M MwResult;
  env_JWT_SECRET : option string;
  env_NODE_ENV : option string
}.

(** ** jsonwebtoken *)

(** The claims [generateToken] signs: [{ id, iat, exp }], times in seconds. *)
Record Claims := mkClaims {
  claim_id : Z;
  claim_iat : Z;
  claim_exp : Z
}.

Definition alg_name (a : Alg) : string :=
  match a with HS256 => "HS256" | HS384 => "HS384" | HS512 => "HS512" end.

Definition alg_of_name (s : string) : option Alg :=
  if String.eqb s "HS256" then Some HS256
  else if String.eqb s "HS384" then Some HS384
  else if String.eqb s "HS512" then Some HS512
  else None.

(** Modelled from the spec: the [jsonwebtoken] package is not part of the
    repository.  A token is three segments joined by dots: the header naming
    the algorithm, the serialised claims, and the signature, the MAC of
    [header.payload] under the secret.  The real segments are base64url JSON;
    here the header is the algorithm name and the claims are three decimal
    integers joined by commas. *)
Definition encode_claims (c : Claims) : string :=
  JsString.join ","
    [JsString.dec (claim_id c); JsString.dec (claim_iat c);
     JsString.dec (claim_exp c)].

Definition decode_claims (s : string) : option Claims :=
  match JsString.split "," s with
  | [a; b; c] =>
      match JsString.undec a, JsString.undec b, JsString.undec c with
      | Some i, Some t, Some e => Some (mkClaims i t e)
      | _, _, _ => None
      end
  | _ => None
  end.

(** ** zod *)

(** Result of a schema on a value: the parsed value, or [None] when parsing
    aborted (zod's INVALID), beside the issues raised.  A value with issues
    is zod's "dirty" status. *)
Definition ParseReturn (A : Type) : Type := (option A * list ZodIssue)%type.

(** [getParsedType], as the [invalid_type] message prints it. *)
Definition parsed_type (v : JsValue) : string :=
  match v with
  | JUndefined => "undefined"
  | JNull => "null"
  | JBool _ => "boolean"
  | JNumber _ => "number"
  | JString _ => "string"
  | JArray _ => "array"
  | JObject _ => "object"
  end.

(** The default message of an [invalid_type] issue. *)
Definition invalid_type_issue (expected : string) (path : list string) (v : JsValue) : ZodIssue :=
  mkIssue invalid_type path
    (match v with
     | JUndefined => "Required"
     | _ => "Expected " ++ expected ++ ", received " ++ parsed_type v
     end).

(** One check of a [z.string()] chain: [.email(msg)], [.regex(re, msg)],
    [.min(n, msg)]. *)
Record StringCheck := mkCheck {
  check_code : IssueCode;
  check_test : string -> bool;
  check_message : string
}.

Definition run_checks (checks : list StringCheck) (path : list string) (s : string) : list ZodIssue :=
  flat_map (fun c => if check_test c s then []
                     else [mkIssue (check_code c) path (check_message c)]) checks.

(** [ZodString._parse]: a non-string aborts with one [invalid_type] issue; a
    string runs every check and keeps its value. *)
Definition zod_string (checks : list StringCheck) (path : list string) (v : JsValue) : ParseReturn string :=
  match v with
  | JString s => (Some s, run_checks checks path s)
  | _ => (None, [invalid_type_issue "string" path v])
  end.

(** [data[key]]: [undefined] when the key is absent. *)
Fixpoint get_field (key : string) (fields : list (string * JsValue)) : JsValue :=
  match fields with
  | [] => JUndefined
  | (k, v) :: rest => if String.eqb k key then v else get_field key rest
  end.

(** [.refine(pred, { message, path })]: skipped when the inner schema
    aborted, run on a valid or dirty value. *)
Definition zod_refine {A} (inner : ParseReturn A) (pred : A -> bool)
    (message : string) (path : list string) : ParseReturn A :=
  match inner with
  | (None, issues) => (None, issues)
  | (Some v, issues) =>
      (Some v, (issues ++ (if pred v then [] else [mkIssue custom path message]))%list)
  end.

(** [schema.parse(data)]: the value when no issue was raised, else a thrown
    [ZodError] carrying all of them. *)
Definition zod_parse {A} (r : ParseReturn A) : M A :=
  match r with
  | (Some v, []) => ret v
  | (None, []) => throw (JsError "Validation failed but no issues detected.")
  | (_, issues) => throw (ZodError issues)
  end.

(** [/^\d{10}$/.test(s)] *)
Definition phone_regex (s : string) : bool :=
  (Nat.eqb (String.length s) 10 && JsString.all_digits s)%bool.

(** [s.length >= n] *)
Definition min_length (n : nat) (s : string) : bool := Nat.leb n (String.length s).

Section Backend.

Context {P : Platform}.

Definition signing_input (header payload : string) : string :=
  header ++ String "." payload.

Definition signature (a : Alg) (secret header payload : string) : string :=
  NilZero.string_of_uint (N.to_uint (hmac a secret (signing_input header payload))).

(** Modelled from the spec: [jwt.sign(payload, secret, { expiresIn })] at
    clock [now] (seconds), with the default algorithm HS256: "a signed token
    asserting {id: userId}, with a fixed expiry from issuance time". *)
Definition jwt_sign (now : Z) (uid : Z) (secret : string) (expiresIn : Z) : string :=
  let header := alg_name HS256 in
  let payload := encode_claims (mkClaims uid now (now + expiresIn)) in
  JsString.join "." [header; payload; signature HS256 secret header payload].

(** Modelled from the spec: [jwt.verify(token, secret)] at clock [now]:
    "checks signature integrity and expiry".  The checks run in the order of
    the package: presence, three segments, decodable header and claims, a
    present signature, the signature itself, then expiry ([now >= exp]). *)
Definition jwt_verify (now : Z) (token : string) (secret : string) : Outcome Claims :=
  if String.eqb token "" then Throw (JsError "jwt must be provided")
  else match JsString.split "." token with
       | [header; payload; sig] =>
           match alg_of_name header, decode_claims payload with
           | Some a, Some c =>
               if String.eqb sig "" then Throw (JsError "jwt signature is required")
               else if negb (String.eqb sig (signature a secret header payload))
               then Throw (JsError "invalid signature")
               else if claim_exp c <=? now then Throw (JsError "jwt expired")
               else Ok c
           | _, _ => Throw (JsError "invalid token")
           end
       | _ => Throw (JsError "jwt malformed")
       end.

(** ** [auth.ts] *)

(** [process.env.JWT_SECRET || "your-secret-key-change-in-production"]: an
    unset or empty variable falls back to the literal. *)
Definition JWT_SECRET : string :=
  match env_JWT_SECRET with
  | Some s => if String.eqb s "" then "your-secret-key-change-in-production" else s
  | None => "your-secret-key-change-in-production"
  end.

(** [Math.floor(Date.now() / 1000)], the clock [jsonwebtoken] reads. *)
Definition now_seconds (w : World) : Z := now_ms w / 1000.

(** ["7d"] as [jsonwebtoken] reads it: seven days in seconds. *)
Definition expiresIn_7d : Z := 7 * 24 * 60 * 60.

(** [bcrypt.hash(password, saltRounds)] draws a fresh salt. *)
Definition hashPassword (pw : string) : M string :=
  fun w =>
    let saltRounds := 10 in
    (Ok (bcrypt_hash (gen_salt (seed w)) saltRounds pw),
     log_event EvBcryptHash (mkWorld (db w) (now_ms w) (N.succ (seed w)) (trace w))).

Definition comparePasswords (pw hashedPassword : string) : M bool :=
  emit EvBcryptCompare ;;; ret (bcrypt_compare pw hashedPassword).

Definition generateToken (now : Z) (userId : Z) : string :=
  jwt_sign now userId JWT_SECRET expiresIn_7d.

(** [null] is [None]; the [catch] turns every throw of [jwt.verify] into it. *)
Definition verifyToken (now : Z) (token : string) : option Claims :=
  match jwt_verify now token JWT_SECRET with
  | Ok decoded => Some decoded
  | Throw _ => None
  end.

(** ** [storage.ts], user operations *)

(** A query of [DatabaseStorage]: rejects with the fault when the database
    is unreachable, otherwise runs [f] on the tables. *)
Definition db_query {A} (name : string) (f : Db -> Outcome A * Db) : M A :=
  fun w =>
    let w1 := log_event (EvQuery name) w in
    match db_fault (db w1) with
    | Some msg => (Throw (JsError msg), w1)
    | None => let '(r, d) := f (db w1) in (r, set_db d w1)
    end.

(** [const [user] = await db.select().from(users).where(eq(users.id, id))] *)
Definition getUserById (uid : Z) : M (option User) :=
  db_query "getUserById" (fun d => (Ok (find (fun u => user_id u =? uid) (users d)), d)).

Definition getUserByEmail (e : string) : M (option User) :=
  db_query "getUserByEmail"
    (fun d => (Ok (find (fun u => String.eqb (user_email u) e) (users d)), d)).

(** The constraint an [INSERT] of [row] violates, if any: the primary key and
    the two [unique()] columns of the [users] table. *)
Definition violated_constraint (rows : list User) (row : User) : option string :=
  if existsb (fun u => user_id u =? user_id row) rows then Some "users_pkey"
  else if existsb (fun u => String.eqb (user_email u) (user_email row)) rows then Some "users_email_unique"
  else if existsb (fun u => String.eqb (user_phone u) (user_phone row)) rows then Some "users_phone_unique"
  else None.

(** [db.insert(users).values(userData).returning()]: the row takes the next
    value of the [serial] sequence (consumed even when the insert fails), the
    column default [false] for an absent [isAdmin], and [defaultNow()] for
    both timestamps.  The insert is that of a row the column types can hold
    ([columns_hold] below); what the server answers for any other row is not
    modelled, and a property that relies on the insert going through states
    [columns_hold] as a hypothesis. *)
Definition createUser (userData : InsertUser) : M User :=
  w <- get_world ;;
  db_query "createUser" (fun d =>
    let row := mkUser (users_id_seq d) (ins_fullName userData) (ins_email userData)
                 (ins_phone userData) (ins_password userData)
                 (match ins_isAdmin userData with Some b => b | None => false end)
                 (Some (now_ms w)) (Some (now_ms w)) in
    let d1 := mkDb (users d) (users_id_seq d + 1) (db_fault d) in
    match violated_constraint (users d) row with
    | Some c =>
        (Throw (JsError ("duplicate key value violates unique constraint " ++ c)), d1)
    | None => (Ok row, mkDb (users d ++ [row])%list (users_id_seq d1) (db_fault d))
    end).

(** [db.update(users).set({ isAdmin: true, updatedAt: new Date() })
       .where(eq(users.id, id)).returning()], first returned row.  The id is
    one the [integer] column can be compared with ([in_int4] below); what the
    server answers for any other number is not modelled. *)
Definition setUserAsAdmin (uid : Z) : M (option User) :=
  w <- get_world ;;
  db_query "setUserAsAdmin" (fun d =>
    let promote u :=
      if user_id u =? uid
      then mkUser (user_id u) (user_fullName u) (user_email u) (user_phone u) (user_password u) true
             (user_createdAt u) (Some (now_ms w))
      else u in
    let rows := map promote (users d) in
    (Ok (find (fun u => user_id u =? uid) rows), mkDb rows (users_id_seq d) (db_fault d))).

(** ** Auth schemas of [shared/schema.ts] *)

Definition email_check (message : string) : StringCheck :=
  mkCheck invalid_string is_email message.

(** [createInsertSchema(users).omit({...}).extend({...})]: the keys in shape
    order, [fullName] a plain [z.string()]. *)
Definition registerUser_object (body : JsValue) : ParseReturn RegisterUser :=
  match body with
  | JObject fields =>
      let f := zod_string [] ["fullName"] (get_field "fullName" fields) in
      let e := zod_string [email_check "Please enter a valid email address"]
                 ["email"] (get_field "email" fields) in
      let p := zod_string [mkCheck invalid_string phone_regex "Phone number must be 10 digits"]
                 ["phone"] (get_field "phone" fields) in
      let w := zod_string [mkCheck too_small (min_length 8) "Password must be at least 8 characters"]
                 ["password"] (get_field "password" fields) in
      let c := zod_string [] ["confirmPassword"] (get_field "confirmPassword" fields) in
      (match fst f, fst e, fst p, fst w, fst c with
       | Some vf, Some ve, Some vp, Some vw, Some vc => Some (mkRegisterUser vf ve vp vw vc)
       | _, _, _, _, _ => None
       end,
       (snd f ++ snd e ++ snd p ++ snd w ++ snd c)%list)
  | _ => (None, [invalid_type_issue "object" [] body])
  end.

Definition registerUserSchema (body : JsValue) : ParseReturn RegisterUser :=
  zod_refine (registerUser_object body)
    (fun data => String.eqb (reg_password data) (reg_confirmPassword data))
    "Passwords don't match" ["confirmPassword"].

Definition loginSchema (body : JsValue) : ParseReturn LoginCredentials :=
  match body with
  | JObject fields =>
      let e := zod_string [email_check "Please enter a valid email address"]
                 ["email"] (get_field "email" fields) in
      let w := zod_string [mkCheck too_small (min_length 1) "Password is required"]
                 ["password"] (get_field "password" fields) in
      (match fst e, fst w with
       | Some ve, Some vw => Some (mkLoginCredentials ve vw)
       | _, _ => None
       end,
       (snd e ++ snd w)%list)
  | _ => (None, [invalid_type_issue "object" [] body])
  end.

(** ** [auth.ts], middleware and operations *)

Definition unauthorized : Response := json_message 401 "Unauthorized".

(** [!token] for [req.cookies.token]: an absent or empty cookie. *)
Definition no_token (t : option string) : bool :=
  match t with
  | None => true
  | Some s => String.eqb s ""
  end.

Definition attach_user (req : Request) (u : User) : Request :=
  mkRequest (cookie_token req) (req_body req) (Some u).

Definition isAuthenticated (req : Request) : M MwResult :=
  try_catch
    (match cookie_token req with
     | None => ret (Respond unauthorized)
     | Some token =>
         if no_token (Some token) then ret (Respond unauthorized)
         else
           w <- get_world ;;
           match verifyToken (now_seconds w) token with
           | None => ret (Respond unauthorized)
           | Some decoded =>
               user <- getUserById (claim_id decoded) ;;
               match user with
               | None => ret (Respond unauthorized)
               | Some u => ret (Next (attach_user req u))
               end
           end
     end)
    (fun error =>
       console_error "Authentication error:" error ;;;
       ret (Respond unauthorized)).

(** [isAdmin] reads [req.user] only: no cookie, no store, nothing to throw. *)
Definition isAdmin (req : Request) : MwResult :=
  match req_user req with
  | None => Respond (json_message 403 "Forbidden: Admin access required")
  | Some u =>
      if negb (user_isAdmin u)
      then Respond (json_message 403 "Forbidden: Admin access required")
      else Next req
  end.

Definition register (userData : RegisterUser) : M (User * string) :=
  try_catch
    (hashedPassword <- hashPassword (reg_password userData) ;;
     user <- createUser (mkInsertUser (reg_fullName userData) (reg_email userData)
                           (reg_phone userData) hashedPassword (Some false)) ;;
     w <- get_world ;;
     ret (user, generateToken (now_seconds w) (user_id user)))
    (fun error =>
       console_error "Registration error:" error ;;;
       throw (JsError "Failed to register user")).

Definition login (credentials : LoginCredentials) : M (User * string) :=
  try_catch
    (user <- getUserByEmail (cred_email credentials) ;;
     match user with
     | None => throw (JsError "Invalid email or password")
     | Some u =>
         passwordMatch <- comparePasswords (cred_password credentials) (user_password u) ;;
         if negb passwordMatch then throw (JsError "Invalid email or password")
         else
           w <- get_world ;;
           ret (u, generateToken (now_seconds w) (user_id u))
     end)
    (fun error => console_error "Login error:" error ;;; throw error).

(** ** [auth-routes.ts] *)

(** [{ httpOnly: true, secure: NODE_ENV === "production", maxAge: 7 days }],
    [maxAge] in milliseconds. *)
Definition token_cookie_options : CookieOptions :=
  mkCookieOptions true
    (match env_NODE_ENV with Some v => String.eqb v "production" | None => false end)
    (7 * 24 * 60 * 60 * 1000).

Definition post_register (req : Request) : M Response :=
  try_catch
    (validatedData <- zod_parse (registerUserSchema (req_body req)) ;;
     existingUser <- getUserByEmail (reg_email validatedData) ;;
     match existingUser with
     | Some _ => ret (json_message 400 "Email already in use")
     | None =>
         r <- register validatedData ;;
         ret (mkResponse 201 [SetCookie "token" (snd r) token_cookie_options]
                (BUserField (fst r)))
     end)
    (fun error =>
       match error with
       | ZodError errors => ret (mkResponse 400 [] (BErrors "Validation error" errors))
       | _ =>
           console_error "Registration error:" error ;;;
           ret (json_message 500 "Failed to register user")
       end).

Definition post_login (req : Request) : M Response :=
  try_catch
    (validatedData <- zod_parse (loginSchema (req_body req)) ;;
     r <- login validatedData ;;
     ret (mkResponse 200 [SetCookie "token" (snd r) token_cookie_options]
            (BUserField (fst r))))
    (fun error =>
       match error with
       | ZodError errors => ret (mkResponse 400 [] (BErrors "Validation error" errors))
       | JsError message => ret (json_message 401 message)
       | NonError _ =>
           console_error "Login error:" error ;;;
           ret (json_message 500 "Failed to login")
       end).

Definition post_logout (req : Request) : M Response :=
  ret (mkResponse 200 [ClearCookie "token"] (BMessage "Logged out successfully")).

(** The final handlers of [GET /user] and [GET /admin]. *)
Definition get_user (req : Request) : M Response :=
  ret (mkResponse 200 [] (BUser (req_user req))).

Definition get_admin (req : Request) : M Response :=
  ret (mkResponse 200 [] (BIsAdmin true)).

(** ** Express dispatch *)

Definition run_middleware (m : Middleware) (req : Request) : M MwResult :=
  match m with
  | IsAuthenticated => isAuthenticated req
  | IsAdmin => ret (isAdmin req)
  | Upload what => multer what req
  end.

(** A route's middleware run in registration order; the first to respond
    ends the request, and the handler runs only if all call [next()]. *)
Fixpoint run_chain (chain : list Middleware) (handler : Request -> M Response)
    (req : Request) : M Response :=
  match chain with
  | [] => handler req
  | m :: rest =>
      r <- run_middleware m req ;;
      match r with
      | Respond resp => ret resp
      | Next req' => run_chain rest handler req'
      end
  end.

End Backend.

(** ** Route tables *)

Inductive Method := GET | POST | PUT | PATCH | DELETE.

Record Route := mkRoute {
  route_method : Method;
  route_path : string;
  route_chain : list Middleware
}.

(** The router of [auth-routes.ts], mounted at [/api/auth]. *)
Definition authRoutes : list Route :=
  [ mkRoute POST "/api/auth/register" [];
    mkRoute POST "/api/auth/login" [];
    mkRoute POST "/api/auth/logout" [];
    mkRoute GET "/api/auth/user" [IsAuthenticated];
    mkRoute GET "/api/auth/admin" [IsAuthenticated; IsAdmin] ].

(** Every route [registerRoutes] installs, in registration order. *)
Definition registerRoutes : list Route :=
  (authRoutes ++
  [ mkRoute GET "/api/projects" [];
    mkRoute GET "/api/projects/:id" [];
    mkRoute POST "/api/projects" [IsAuthenticated; IsAdmin];
    mkRoute PUT "/api/projects/:id" [IsAuthenticated; IsAdmin];
    mkRoute DELETE "/api/projects/:id" [IsAuthenticated; IsAdmin];
    mkRoute GET "/api/media" [];
    mkRoute POST "/api/media" [IsAuthenticated; IsAdmin; Upload "single:file"];
    mkRoute DELETE "/api/media/:id" [IsAuthenticated; IsAdmin];
    mkRoute GET "/api/complaints" [IsAuthenticated];
    mkRoute GET "/api/complaints/stats" [IsAuthenticated; IsAdmin];
    mkRoute GET "/api/complaints/:id" [IsAuthenticated];
    mkRoute POST "/api/complaints" [IsAuthenticated; Upload "array:attachments:3"];
    mkRoute PATCH "/api/complaints/:id" [IsAuthenticated; IsAdmin];
    mkRoute GET "/api/events" [];
    mkRoute POST "/api/events" [IsAuthenticated; IsAdmin];
    mkRoute DELETE "/api/events/:id" [IsAuthenticated; IsAdmin];
    mkRoute POST "/api/admin/promote/:userId" [IsAuthenticated; IsAdmin] ])%list.

(** ** The client's cookie jar *)

(** The browser's [token] cookie after a response: set, cleared or kept. *)
Definition apply_cookie (jar : option string) (op : CookieOp) : option string :=
  match op with
  | SetCookie name value _ => if String.eqb name "token" then Some value else jar
  | ClearCookie name => if String.eqb name "token" then None else jar
  end.

Definition apply_cookies (jar : option string) (r : Response) : option string :=
  fold_left apply_cookie (set_cookies r) jar.

(** The next request of a client holding [jar]. *)
Definition request_with (jar : option string) (b : JsValue) : Request :=
  mkRequest jar b None.

(** ** A reference platform

    A small concrete platform on which the model runs: a rolling checksum for
    the MAC, a transparent stand-in for bcrypt that keeps the salt in front of
    the password, decimal salts, and "contains an at sign" for the e-mail
    pattern.  It is used to evaluate the handlers on concrete requests. *)

Fixpoint checksum (acc : N) (s : string) : N :=
  match s with
  | EmptyString => acc
  | String c r => checksum ((acc * 31 + N.of_nat (nat_of_ascii c)) mod 4294967296)%N r
  end.

Definition ref_hmac (a : Alg) (key msg : string) : N :=
  checksum (checksum (match a with HS256 => 256 | HS384 => 384 | HS512 => 512 end)%N key) msg.

(** The text after the first [sep] of [s], or [None] when [sep] is absent. *)
Fixpoint after_first (sep : ascii) (s : string) : option string :=
  match s with
  | EmptyString => None
  | String c r => if Ascii.eqb c sep then Some r else after_first sep r
  end.

Definition ref_bcrypt_hash (salt : string) (rounds : Z) (pw : string) : string :=
  salt ++ String "$" pw.

Definition ref_bcrypt_compare (pw hashed : string) : bool :=
  match after_first "$" hashed with
  | Some rest => String.eqb rest pw
  | None => false
  end.

Definition ref_gen_salt (n : N) : string := JsString.dec (Z.of_N n).

Definition ref_is_email (s : string) : bool := negb (JsString.lacks "@" s).

#[export] Instance ref_platform : Platform := {
  hmac := ref_hmac;
  bcrypt_hash := ref_bcrypt_hash;
  bcrypt_compare := ref_bcrypt_compare;
  gen_salt := ref_gen_salt;
  is_email := ref_is_email;
  multer := fun _ req => ret (Next req);
  env_JWT_SECRET := None;
  env_NODE_ENV := None
}.

(** The documented contract of bcrypt a platform is expected to meet:
    [compare] accepts a password against its own hash under any generated
    salt, and a hash is never the password it was computed from. *)
Class BcryptContract (P : Platform) : Prop := {
  compare_own_hash : forall n rounds pw,
    bcrypt_compare pw (bcrypt_hash (gen_salt n) rounds pw) = true;
  hash_is_not_plaintext : forall n rounds pw,
    bcrypt_hash (gen_salt n) rounds pw <> pw
}.

(** A well-formed [users] table: ids below the sequence, and ids, e-mails
    and phones pairwise distinct, as its constraints keep them. *)
Definition db_ok (d : Db) : Prop :=
  Forall (fun u => user_id u < users_id_seq d) (users d)
  /\ NoDup (map user_id (users d))
  /\ NoDup (map user_email (users d))
  /\ NoDup (map user_phone (users d)).


(** ** Vocabulary of the properties *)

(** The middleware ended the request with status [code]. *)
Definition responds_with (code : Z) (o : Outcome MwResult) : Prop :=
  exists resp, o = Ok (Respond resp) /\ status resp = code.

Section Vocabulary.

Context {P : Platform}.

Definition token_missing (req : Request) : Prop := cookie_token req = None.

Definition token_invalid (w : World) (req : Request) : Prop :=
  exists tok, cookie_token req = Some tok
              /\ verifyToken (now_seconds w) tok = None.

(** The cookie verifies, with claims [c]. *)
Definition token_decodes (w : World) (req : Request) (c : Claims) : Prop :=
  exists tok, cookie_token req = Some tok
              /\ verifyToken (now_seconds w) tok = Some c.

Definition stored_user (w : World) (uid : Z) : option User :=
  find (fun u => user_id u =? uid) (users (db w)).

Definition user_unknown (w : World) (req : Request) : Prop :=
  exists c, token_decodes w req c /\ stored_user w (claim_id c) = None.

Definition lookup_fails (w : World) (req : Request) : Prop :=
  exists c, token_decodes w req c /\ db_fault (db w) <> None.

(** The row [register] inserts for validated data [v] in world [w]. *)
Definition registered_row (v : RegisterUser) (w : World) : User :=
  mkUser (users_id_seq (db w)) (reg_fullName v) (reg_email v) (reg_phone v)
    (bcrypt_hash (gen_salt (seed w)) 10 (reg_password v)) false
    (Some (now_ms w)) (Some (now_ms w)).

End Vocabulary.

(** The row [createUser] builds from [userData] in world [w]. *)
Definition inserted_row (userData : InsertUser) (w : World) : User :=
  mkUser (users_id_seq (db w)) (ins_fullName userData) (ins_email userData)
    (ins_phone userData) (ins_password userData)
    (match ins_isAdmin userData with Some b => b | None => false end)
    (Some (now_ms w)) (Some (now_ms w)).

(** A route is admin-protected when [isAdmin] is among its middleware. *)
Definition admin_protected (r : Route) : Prop := In IsAdmin (route_chain r).

(** What [isAdmin] decides, apart from the request it hands on. *)
Definition verdict (r : MwResult) : option Response :=
  match r with
  | Respond resp => Some resp
  | Next _ => None
  end.

Definition forbidden : Response := json_message 403 "Forbidden: Admin access required".

Definition email_taken (e : string) (d : Db) : bool :=
  existsb (fun u => String.eqb (user_email u) e) (users d).

Definition phone_taken (p : string) (d : Db) : bool :=
  existsb (fun u => String.eqb (user_phone u) p) (users d).

(** The world after a successful [register]: one hash computed with a fresh
    salt, one row appended, the sequence advanced. *)
Definition world_after_register (w : World) (row : User) : World :=
  mkWorld (mkDb (users (db w) ++ [row])%list (users_id_seq (db w) + 1) (db_fault (db w)))
    (now_ms w) (N.succ (seed w))
    (trace w ++ [EvQuery "getUserByEmail"; EvBcryptHash; EvQuery "createUser"])%list.

(** The issues [registerUserSchema] raises on a payload whose five fields
    are strings, in shape order with the refinement last. *)
Definition string_payload_issues {P : Platform} (e p pw c : string) : list ZodIssue :=
  ((if is_email e then []
    else [mkIssue invalid_string ["email"] "Please enter a valid email address"])
   ++ (if phone_regex p then []
       else [mkIssue invalid_string ["phone"] "Phone number must be 10 digits"])
   ++ (if min_length 8 pw then []
       else [mkIssue too_small ["password"] "Password must be at least 8 characters"])
   ++ (if String.eqb pw c then []
       else [mkIssue custom ["confirmPassword"] "Passwords don't match"]))%list.


(** A body with the five fields of the registration form. *)
Definition register_form (f e p pw c : JsValue) : JsValue :=
  JObject [("fullName", f); ("email", e); ("phone", p); ("password", pw);
           ("confirmPassword", c)].

(** Password comparisons performed so far, the dominant cost of a login. *)
Definition bcrypt_compares (w : World) : nat :=
  List.length (filter (fun e => match e with EvBcryptCompare => true | _ => false end)
                 (trace w)).

Definition invalid_credentials : Response :=
  json_message 401 "Invalid email or password".

(** A login body. *)
Definition login_form (e pw : string) : JsValue :=
  JObject [("email", JString e); ("password", JString pw)].

(** The range of PostgreSQL's [integer], the type of a [serial] column. *)
Definition in_int4 (z : Z) : Prop := -2147483648 <= z <= 2147483647.

Definition in_int4b (z : Z) : bool := (-2147483648 <=? z) && (z <=? 2147483647).

(** A [varchar] value the server stores: no U+0000 in it. *)
Definition varchar_holds (s : string) : bool := JsString.lacks Ascii.zero s.

(** A value of a [unique()] column whose index entry stays well below the
    third of a page a B-tree entry may take, at three bytes a character. *)
Definition index_entry_fits (s : string) : bool :=
  3 * Z.of_nat (String.length s) <=? 2000.

(** A row the [users] table can hold: the id within [integer], every
    [varchar] free of U+0000, and the two unique columns short enough for
    their index. *)
Definition columns_hold (row : User) : bool :=
  in_int4b (user_id row)
  && varchar_holds (user_fullName row) && varchar_holds (user_email row)
  && varchar_holds (user_phone row) && varchar_holds (user_password row)
  && index_entry_fits (user_email row) && index_entry_fits (user_phone row).

(** Every run of [m] leaves the world related to the one it started in. *)
Definition steps_within (R : World -> World -> Prop) {A} (m : M A) : Prop :=
  forall w, R w (snd (m w)).

(** The table stays well formed. *)
Definition keeps_db_ok (w w' : World) : Prop := db_ok (db w) -> db_ok (db w').

(** Rows are only ever appended, and no appended row is an administrator. *)
Definition only_adds_plain_users (w w' : World) : Prop :=
  exists extra, users (db w') = (users (db w) ++ extra)%list
                /\ Forall (fun u => user_isAdmin u = false) extra.

(** The database is not written. *)
Definition same_db (w w' : World) : Prop := db w' = db w.

(** A relation that looks at the database only, and so is blind to logging. *)
Definition db_relation (R : World -> World -> Prop) : Prop :=
  forall w w', db w' = db w -> R w w'.

(** The world [w] some time later: only the clock has moved. *)
Definition at_time (ms : Z) (w : World) : World :=
  mkWorld (db w) ms (seed w) (trace w).

(** [u] with the administrative flag set and [updatedAt] moved to [ms]. *)
Definition promoted (ms : Z) (u : User) : User :=
  mkUser (user_id u) (user_fullName u) (user_email u) (user_phone u)
    (user_password u) true (user_createdAt u) (Some ms).

(** ** Complaints ([storage.ts] and [routes.ts])

    The complaint queries are modelled on a snapshot of the [complaints]
    table: the rows a query returns when the database answers. *)

Module Complaints.

Record Complaint := mkComplaint {
  complaint_id : Z;
  userId : Z;
  title : string;
  description : string;
  category : string;
  location : string;
  complaint_status : string;
  attachments : option (list string);
  adminResponse : option string;
  complaint_createdAt : option Z;
  complaint_updatedAt : option Z
}.

(** Truthiness of a [number | undefined] and of a [string | undefined]. *)
Definition truthy_number (n : option Z) : bool :=
  match n with Some z => negb (z =? 0) | None => false end.

Definition truthy_string (s : option string) : bool :=
  match s with Some x => negb (String.eqb x "") | None => false end.

(** [a] sorts before or level with [b] under [ORDER BY created_at DESC],
    where PostgreSQL puts NULL first. *)
Definition newer_or_level (a b : Complaint) : bool :=
  match complaint_createdAt a, complaint_createdAt b with
  | None, _ => true
  | Some _, None => false
  | Some x, Some y => y <=? x
  end.

Fixpoint insert_desc (c : Complaint) (l : list Complaint) : list Complaint :=
  match l with
  | [] => [c]
  | h :: t => if newer_or_level c h then c :: l else h :: insert_desc c t
  end.

(** [.orderBy(desc(complaints.createdAt))]; SQL leaves the order of rows
    with equal keys open, the model keeps them in table order. *)
Definition orderBy_desc_createdAt (rows : list Complaint) : list Complaint :=
  fold_right insert_desc [] rows.

Definition eq_userId (u : option Z) (c : Complaint) : bool :=
  match u with Some z => userId c =? z | None => false end.

Definition eq_status (s : option string) (c : Complaint) : bool :=
  match s with Some x => String.eqb (complaint_status c) x | None => false end.

(** [getComplaints(userId?, status?)] for the [number | undefined] ids its
    callers pass; the branches follow the truthiness tests of the source. *)
Definition getComplaints (table : list Complaint) (uid : option Z)
    (status : option string) : list Complaint :=
  if (truthy_number uid && truthy_string status)%bool then
    orderBy_desc_createdAt
      (filter (fun c => eq_userId uid c && eq_status status c)%bool table)
  else if truthy_number uid then
    orderBy_desc_createdAt (filter (eq_userId uid) table)
  else if truthy_string status then
    orderBy_desc_createdAt (filter (eq_status status) table)
  else orderBy_desc_createdAt table.

Definition count_status (s : string) (table : list Complaint) : nat :=
  List.length (filter (fun c => String.eqb (complaint_status c) s) table).

(** [getComplaintStats()]: [(pending, inProgress, completed)].  The source
    awaits three SELECTs one after the other outside any transaction, so each
    count is taken on the table as it is when its own query runs. *)
Definition getComplaintStats (at_pending at_inProgress at_completed : list Complaint)
    : nat * nat * nat :=
  (count_status "pending" at_pending,
   count_status "in-progress" at_inProgress,
   count_status "completed" at_completed).

Inductive Answer :=
| AMessage (code : Z) (message : string)
| AComplaints (rows : list Complaint).

(** The handler of [GET /api/complaints], behind [isAuthenticated]:
    [fault] is the error of an unreachable store, [status] the query
    parameter. *)
Definition get_complaints (table : list Complaint) (fault : option string)
    (status : option string) (req : Request) : Answer :=
  match req_user req with
  | None => AMessage 401 "User not found"
  | Some user =>
      match fault with
      | Some _ => AMessage 500 "Failed to fetch complaints"
      | None =>
          AComplaints (if user_isAdmin user
                       then getComplaints table None status
                       else getComplaints table (Some (user_id user)) status)
      end
  end.

(** The rows [getComplaints] is asked for. *)
Definition wanted (uid : option Z) (status : option string) (c : Complaint) : bool :=
  ((negb (truthy_number uid) || eq_userId uid c)
   && (negb (truthy_string status) || eq_status status c))%bool.

Definition sample_complaints : list Complaint :=
  [ mkComplaint 1 1 "Broken Swing" "The swing in the park is broken." "Maintenance"
      "Central Park" "pending" (Some []) None (Some 10) (Some 10);
    mkComplaint 2 2 "Street light" "Light out at the corner." "Maintenance"
      "Main Street" "completed" (Some []) (Some "Fixed") (Some 20) (Some 30) ].

End Complaints.

(** ** Sample data *)

Definition alice : User :=
  mkUser 1 "Alice" "alice@example.com" "5550000001" "0$correct horse" false
    (Some 0) (Some 0).

Definition root : User :=
  mkUser 2 "Root" "root@example.com" "5550000002" "1$open sesame" true
    (Some 0) (Some 0).

Definition sample_db : Db := mkDb [alice; root] 3 None.

Definition sample_world : World := mkWorld sample_db 1000000 2 [].

(** The same world with the database unreachable. *)
Definition faulty_world : World :=
  mkWorld (mkDb [alice; root] 3 (Some "Connection terminated unexpectedly"))
    1000000 2 [].

(** A valid registration that also carries an [isAdmin] field. *)
Definition carol_form : JsValue :=
  JObject [("fullName", JString "Carol"); ("email", JString "carol@example.com");
           ("phone", JString "5550000003"); ("password", JString "s3cretpass");
           ("confirmPassword", JString "s3cretpass"); ("isAdmin", JBool true)].

Definition carol_data : RegisterUser :=
  mkRegisterUser "Carol" "carol@example.com" "5550000003" "s3cretpass" "s3cretpass".

(** A payload breaking all four rules at once. *)
Definition broken_form : JsValue :=
  register_form (JString "Bob") (JString "bad") (JString "12") (JString "short")
    (JString "other").



(** * Properties *)

(** ** Strings *)

Lemma split_cons (sep : ascii) (s : string) :
  exists h t, JsString.split sep s = h :: t.
Proof.
  induction s as [|c r IH]; simpl.
  - eauto.
  - destruct (Ascii.eqb c sep); [eauto|].
    destruct IH as (h & t & ->). eauto.
Qed.

Lemma split_lacks (sep : ascii) (s : string) :
  JsString.lacks sep s = true -> JsString.split sep s = [s].
Proof.
  induction s as [|c r IH]; simpl; [reflexivity|].
  intros H. apply andb_true_iff in H as [Hc Hr].
  apply negb_true_iff in Hc. rewrite Hc, (IH Hr). reflexivity.
Qed.

Lemma split_app (sep : ascii) (p rest : string) :
  JsString.lacks sep p = true ->
  JsString.split sep (p ++ String sep rest) = p :: JsString.split sep rest.
Proof.
  induction p as [|c r IH]; simpl.
  - intros _. now rewrite Ascii.eqb_refl.
  - intros H. apply andb_true_iff in H as [Hc Hr].
    apply negb_true_iff in Hc. rewrite Hc, (IH Hr). reflexivity.
Qed.

Lemma split_join (sep : ascii) (parts : list string) :
  parts <> [] ->
  Forall (fun p => JsString.lacks sep p = true) parts ->
  JsString.split sep (JsString.join sep parts) = parts.
Proof.
  induction parts as [|p rest IH]; [congruence|].
  intros _ H. inversion H as [|? ? Hp Hrest]; subst.
  destruct rest as [|q rest'].
  - simpl. now apply split_lacks.
  - change (JsString.join sep (p :: q :: rest'))
      with (p ++ String sep (JsString.join sep (q :: rest'))).
    rewrite split_app by assumption. f_equal. apply IH; [congruence|assumption].
Qed.

Lemma lacks_app (c : ascii) (a b : string) :
  JsString.lacks c (a ++ b) = (JsString.lacks c a && JsString.lacks c b)%bool.
Proof.
  induction a as [|x r IH]; simpl; [reflexivity|].
  rewrite IH. now rewrite andb_assoc.
Qed.

(** ** Decimal rendering *)

Ltac absent_char Hc :=
  apply negb_true_iff;
  match goal with
  | |- Ascii.eqb ?a ?c = false =>
      let E := fresh "E" in
      destruct (Ascii.eqb_spec a c) as [E|];
      [rewrite <- E in Hc; discriminate Hc | reflexivity]
  end.

Lemma lacks_uint (c : ascii) (d : Decimal.uint) :
  JsString.is_digit c = false ->
  JsString.lacks c (NilEmpty.string_of_uint d) = true.
Proof.
  intros Hc.
  induction d; cbn [NilEmpty.string_of_uint JsString.lacks]; try reflexivity;
    rewrite IHd, andb_true_r; absent_char Hc.
Qed.

Lemma lacks_uint0 (c : ascii) (d : Decimal.uint) :
  JsString.is_digit c = false ->
  JsString.lacks c (NilZero.string_of_uint d) = true.
Proof.
  intros Hc. destruct d; try apply (lacks_uint c _ Hc).
  cbn [NilZero.string_of_uint JsString.lacks]. rewrite andb_true_r. absent_char Hc.
Qed.

Lemma lacks_dec (c : ascii) (z : Z) :
  JsString.is_digit c = false -> c <> "-"%char ->
  JsString.lacks c (JsString.dec z) = true.
Proof.
  intros Hc Hm. unfold JsString.dec.
  destruct (Z.to_int z) as [d|d]; cbn [NilZero.string_of_int JsString.lacks].
  - now apply lacks_uint0.
  - rewrite lacks_uint0 by assumption. rewrite andb_true_r.
    apply negb_true_iff. destruct (Ascii.eqb_spec "-"%char c); congruence.
Qed.

Lemma undec_dec (z : Z) : JsString.undec (JsString.dec z) = Some z.
Proof.
  unfold JsString.undec, JsString.dec.
  rewrite NilZero.isi.
  - simpl. now rewrite DecimalZ.of_to.
  - destruct z; simpl; try discriminate.
    intros [= H]. now apply (Unsigned.to_uint_nonnil p).
  - destruct z; simpl; try discriminate.
    intros [= H]. now apply (Unsigned.to_uint_nonnil p).
Qed.

Lemma uint0_nonempty (d : Decimal.uint) : NilZero.string_of_uint d <> "".
Proof. destruct d; discriminate. Qed.

(** ** Tokens *)

Section TokenFacts.

Context {P : Platform}.

Lemma alg_of_alg_name (a : Alg) : alg_of_name (alg_name a) = Some a.
Proof. destruct a; reflexivity. Qed.

Lemma alg_name_lacks_dot (a : Alg) : JsString.lacks "." (alg_name a) = true.
Proof. destruct a; reflexivity. Qed.

Lemma encode_claims_lacks_dot (c : Claims) :
  JsString.lacks "." (encode_claims c) = true.
Proof.
  unfold encode_claims. cbn [JsString.join].
  repeat (rewrite lacks_app; cbn [JsString.lacks]).
  rewrite !lacks_dec by (reflexivity || discriminate). reflexivity.
Qed.

Lemma decode_encode_claims (c : Claims) :
  decode_claims (encode_claims c) = Some c.
Proof.
  unfold decode_claims, encode_claims.
  rewrite split_join.
  - rewrite !undec_dec. now destruct c.
  - discriminate.
  - repeat constructor; apply lacks_dec; reflexivity || discriminate.
Qed.

Lemma signature_lacks_dot (a : Alg) (secret header payload : string) :
  JsString.lacks "." (signature a secret header payload) = true.
Proof. unfold signature. now apply lacks_uint0. Qed.

Lemma signature_nonempty (a : Alg) (secret header payload : string) :
  String.eqb (signature a secret header payload) "" = false.
Proof. apply String.eqb_neq, uint0_nonempty. Qed.

Lemma jwt_sign_segments (now uid : Z) (secret : string) (expiresIn : Z) :
  let payload := encode_claims (mkClaims uid now (now + expiresIn)) in
  JsString.split "." (jwt_sign now uid secret expiresIn)
  = ["HS256"; payload; signature HS256 secret "HS256" payload].
Proof.
  intros payload. unfold jwt_sign. apply split_join; [discriminate|].
  repeat constructor.
  - apply encode_claims_lacks_dot.
  - apply signature_lacks_dot.
Qed.

Lemma jwt_sign_nonempty (now uid : Z) (secret : string) (expiresIn : Z) :
  String.eqb (jwt_sign now uid secret expiresIn) "" = false.
Proof. reflexivity. Qed.

(** A token checked at clock [t]: accepted with its claims strictly before
    its expiry, rejected as expired from then on. *)
Lemma jwt_verify_sign (now t uid : Z) (secret : string) (expiresIn : Z) :
  jwt_verify t (jwt_sign now uid secret expiresIn) secret
  = if now + expiresIn <=? t then Throw (JsError "jwt expired")
    else Ok (mkClaims uid now (now + expiresIn)).
Proof.
  unfold jwt_verify.
  rewrite jwt_sign_nonempty, jwt_sign_segments.
  change (alg_of_name "HS256") with (Some HS256).
  rewrite decode_encode_claims, signature_nonempty, String.eqb_refl.
  reflexivity.
Qed.

Lemma verifyToken_generateToken_at (now t uid : Z) :
  verifyToken t (generateToken now uid)
  = if now + expiresIn_7d <=? t then None
    else Some (mkClaims uid now (now + expiresIn_7d)).
Proof.
  unfold verifyToken, generateToken. rewrite jwt_verify_sign.
  now destruct (now + expiresIn_7d <=? t).
Qed.

Lemma verifyToken_fresh (now uid : Z) :
  verifyToken now (generateToken now uid)
  = Some (mkClaims uid now (now + expiresIn_7d)).
Proof.
  rewrite verifyToken_generateToken_at.
  destruct (Z.leb_spec (now + expiresIn_7d) now) as [H|H]; [|reflexivity].
  unfold expiresIn_7d in H. lia.
Qed.

Lemma verifyToken_malformed (t : Z) (token : string) :
  List.length (JsString.split "." token) <> 3%nat ->
  verifyToken t token = None.
Proof.
  intros H. unfold verifyToken, jwt_verify.
  destruct (String.eqb token ""); [reflexivity|].
  destruct (JsString.split "." token) as [|a [|b [|c [|d l]]]]; try reflexivity.
  now elim H.
Qed.

Lemma verifyToken_bad_signature (t : Z) (token header payload sig : string) :
  JsString.split "." token = [header; payload; sig] ->
  (forall a, alg_of_name header = Some a ->
             sig <> signature a JWT_SECRET header payload) ->
  verifyToken t token = None.
Proof.
  intros Hs Hsig. unfold verifyToken, jwt_verify. rewrite Hs.
  destruct (String.eqb token ""); [reflexivity|].
  destruct (alg_of_name header) as [a|]; [|reflexivity].
  destruct (decode_claims payload) as [c|]; [|reflexivity].
  destruct (String.eqb sig ""); [reflexivity|].
  specialize (Hsig a eq_refl). apply String.eqb_neq in Hsig. rewrite Hsig.
  reflexivity.
Qed.

Lemma signature_inj (a : Alg) (secret h1 p1 h2 p2 : string) :
  signature a secret h1 p1 = signature a secret h2 p2 ->
  hmac a secret (signing_input h1 p1) = hmac a secret (signing_input h2 p2).
Proof.
  unfold signature. intros H.
  apply DecimalN.Unsigned.to_uint_inj.
  assert (Hn : forall n, N.to_uint n <> Decimal.Nil).
  { intros [|p]; [discriminate|]. apply Unsigned.to_uint_nonnil. }
  apply (f_equal NilZero.uint_of_string) in H.
  rewrite !NilZero.usu in H by apply Hn. congruence.
Qed.

End TokenFacts.

Lemma join_split (sep : ascii) (s : string) :
  JsString.join sep (JsString.split sep s) = s.
Proof.
  induction s as [|c r IH]; [reflexivity|].
  cbn [JsString.split].
  destruct (Ascii.eqb_spec c sep) as [->|Hne].
  - destruct (split_cons sep r) as (h & t & E). rewrite E in *.
    change (JsString.join sep ("" :: h :: t)) with (String sep (JsString.join sep (h :: t))).
    now rewrite IH.
  - destruct (split_cons sep r) as (h & t & E). rewrite E in *.
    destruct t as [|q t']; cbn [JsString.join] in *.
    + now rewrite IH.
    + cbn [append]. now rewrite IH.
Qed.

Section TokenClaims.

Context {P : Platform}.

(** A three-segment token whose last segment was replaced. *)
Lemma verifyToken_replaced_signature (t : Z) (header payload sig : string) :
  JsString.lacks "." header = true ->
  JsString.lacks "." payload = true ->
  (forall a, alg_of_name header = Some a ->
             sig <> signature a JWT_SECRET header payload) ->
  verifyToken t (JsString.join "." [header; payload; sig]) = None.
Proof.
  intros Hh Hp Hsig.
  assert (Hsplit : JsString.split "." (JsString.join "." [header; payload; sig])
                   = header :: payload :: JsString.split "." sig).
  { cbn [JsString.join]. now rewrite !split_app. }
  destruct (split_cons "." sig) as (x & rest & E).
  destruct rest as [|y rest].
  - assert (x = sig) by (rewrite <- (join_split "." sig), E; reflexivity). subst x.
    apply verifyToken_bad_signature with header payload sig; [|assumption].
    now rewrite Hsplit, E.
  - apply verifyToken_malformed. rewrite Hsplit, E. simpl. lia.
Qed.

(** C5: a token verified right after [generateToken] issued it for an id
    decodes to that id; a token that is malformed, carries a replaced
    signature, carries a payload other than the signed one, or is checked
    seven days or more after issuance makes [verifyToken] return [null], as
    does every token on which [jwt.verify] throws. *)
Theorem C5_token_round_trip_and_rejection (now uid : Z) :
  (exists c, verifyToken now (generateToken now uid) = Some c /\ claim_id c = uid)
  /\ (forall t, now + 7 * 24 * 60 * 60 <= t ->
        verifyToken t (generateToken now uid) = None)
  /\ (forall t token, List.length (JsString.split "." token) <> 3%nat ->
        verifyToken t token = None)
  /\ (forall t sig',
        let payload := encode_claims (mkClaims uid now (now + expiresIn_7d)) in
        generateToken now uid
          = JsString.join "." ["HS256"; payload; signature HS256 JWT_SECRET "HS256" payload]
        /\ (sig' <> signature HS256 JWT_SECRET "HS256" payload ->
            verifyToken t (JsString.join "." ["HS256"; payload; sig']) = None))
  /\ (forall t c',
        let payload := encode_claims (mkClaims uid now (now + expiresIn_7d)) in
        hmac HS256 JWT_SECRET (signing_input "HS256" (encode_claims c'))
          <> hmac HS256 JWT_SECRET (signing_input "HS256" payload) ->
        verifyToken t (JsString.join "."
          ["HS256"; encode_claims c'; signature HS256 JWT_SECRET "HS256" payload]) = None)
  /\ (forall t token e, jwt_verify t token JWT_SECRET = Throw e ->
        verifyToken t token = None).
Proof.
  repeat split.
  - exists (mkClaims uid now (now + expiresIn_7d)). split; [apply verifyToken_fresh|reflexivity].
  - intros t Ht. rewrite verifyToken_generateToken_at.
    destruct (Z.leb_spec (now + expiresIn_7d) t) as [_|H]; [reflexivity|].
    unfold expiresIn_7d in H. lia.
  - intros t token H. now apply verifyToken_malformed.
  - intros Hne. apply verifyToken_replaced_signature;
      [reflexivity | apply encode_claims_lacks_dot |].
    intros a [= <-]. exact Hne.
  - intros t c' payload Hmac. apply verifyToken_replaced_signature;
      [reflexivity | apply encode_claims_lacks_dot |].
    intros a [= <-] Heq. apply Hmac. symmetry. now apply signature_inj.
  - intros t token e H. unfold verifyToken. now rewrite H.
Qed.

End TokenClaims.

Lemma C5_witness :
  (exists c, verifyToken 1000 (generateToken 1000 7) = Some c /\ claim_id c = 7)
  /\ verifyToken 700000 (generateToken 1000 7) = None
  /\ verifyToken 1000 "not-a-token" = None
  /\ verifyToken 1000 (JsString.join "." ["HS256"; "7,1000,605800"; "12345"]) = None
  /\ verifyToken 1000 (JsString.join "."
       ["HS256"; encode_claims (mkClaims 1 1000 605800);
        signature HS256 JWT_SECRET "HS256" (encode_claims (mkClaims 7 1000 605800))]) = None.
Proof.
  destruct (C5_token_round_trip_and_rejection (P := ref_platform) 1000 7)
    as (H1 & H2 & H3 & H4 & H5 & _).
  split; [exact H1|].
  split; [apply H2; lia|].
  split; [apply H3; vm_compute; discriminate|].
  split.
  - apply (proj2 (H4 1000 "12345")). vm_compute. discriminate.
  - apply (H5 1000 (mkClaims 1 1000 605800)). vm_compute. discriminate.
Defined.

(** ** The authentication gate *)

Lemma set_db_same (w : World) : set_db (db w) w = w.
Proof. now destruct w. Qed.

Lemma db_log_event (e : Event) (w : World) : db (log_event e w) = db w.
Proof. reflexivity. Qed.

Ltac run_monad :=
  cbv [try_catch bind ret throw get_world emit console_error db_query
       getUserById getUserByEmail comparePasswords hashPassword].

Section Gates.

Context {P : Platform}.

(** What [isAuthenticated] does, case by case. *)
Lemma isAuthenticated_run (req : Request) (w : World) :
  isAuthenticated req w =
  match cookie_token req with
  | None => (Ok (Respond unauthorized), w)
  | Some token =>
      if String.eqb token "" then (Ok (Respond unauthorized), w)
      else match verifyToken (now_seconds w) token with
           | None => (Ok (Respond unauthorized), w)
           | Some decoded =>
               let w1 := log_event (EvQuery "getUserById") w in
               match db_fault (db w) with
               | Some msg =>
                   (Ok (Respond unauthorized),
                    log_event (EvConsoleError "Authentication error:" (JsError msg)) w1)
               | None =>
                   match find (fun u => user_id u =? claim_id decoded) (users (db w)) with
                   | None => (Ok (Respond unauthorized), w1)
                   | Some u => (Ok (Next (attach_user req u)), w1)
                   end
               end
           end
  end.
Proof.
  unfold isAuthenticated, no_token. run_monad.
  destruct (cookie_token req) as [token|]; [|reflexivity].
  destruct (String.eqb token ""); [reflexivity|].
  destruct (verifyToken (now_seconds w) token) as [decoded|]; [|reflexivity].
  destruct w as [d n s tr]; cbn [db log_event set_db now_ms seed trace].
  destruct (db_fault d); [reflexivity|].
  now destruct (find _ (users d)).
Qed.

End Gates.

Section GateClaims.

Context {P : Platform}.

Lemma verifyToken_empty (t : Z) : verifyToken t "" = None.
Proof. reflexivity. Qed.

(** C1 (amended): [isAuthenticated] answers 401 exactly when the token
    cookie is missing, or [verifyToken] rejects it, or the store has no user
    for the decoded id, or the store lookup itself fails; in every other case
    it attaches the user the store returned and passes the request on. *)
Theorem C1_authentication_gate (req : Request) (w : World) :
  (responds_with 401 (fst (isAuthenticated req w))
   <-> token_missing req \/ token_invalid w req \/ user_unknown w req
       \/ lookup_fails w req)
  /\ (~ (token_missing req \/ token_invalid w req \/ user_unknown w req
         \/ lookup_fails w req) ->
      exists c u, token_decodes w req c
                  /\ stored_user w (claim_id c) = Some u
                  /\ fst (isAuthenticated req w) = Ok (Next (attach_user req u))).
Proof.
  rewrite isAuthenticated_run.
  unfold token_missing, token_invalid, user_unknown, lookup_fails,
    token_decodes, stored_user.
  assert (H401 : responds_with 401 (Ok (Respond unauthorized)))
    by (eexists; split; reflexivity).
  destruct (cookie_token req) as [token|] eqn:Hc.
  2:{ split; [split; auto|]. intros H; exfalso; apply H; auto. }
  destruct (String.eqb_spec token "") as [->|Hne].
  { assert (Hinv : exists tok, Some "" = Some tok /\ verifyToken (now_seconds w) tok = None)
      by (exists ""; split; [reflexivity|apply verifyToken_empty]).
    split; [split; auto|]. intros H; exfalso; apply H; auto. }
  destruct (verifyToken (now_seconds w) token) as [decoded|] eqn:Hv.
  2:{ assert (Hinv : exists tok, Some token = Some tok /\ verifyToken (now_seconds w) tok = None)
        by (exists token; auto).
      split; [split; auto|]. intros H; exfalso; apply H; auto. }
  assert (Hdec : exists tok, Some token = Some tok
                             /\ verifyToken (now_seconds w) tok = Some decoded)
    by (exists token; auto).
  destruct (db_fault (db w)) as [msg|] eqn:Hf; cbn [fst].
  { assert (Hl : exists c, (exists tok, Some token = Some tok
                              /\ verifyToken (now_seconds w) tok = Some c)
                           /\ Some msg <> None)
      by (exists decoded; split; [assumption|discriminate]).
    split; [split; auto 6|]. intros H; exfalso; apply H; auto 6. }
  destruct (find _ (users (db w))) as [u|] eqn:Hu; cbn [fst].
  - split.
    + split.
      * intros (resp & [=] & _).
      * intros [H1|[(tok & [= <-] & H2)|[(c & (tok & [= <-] & Hc') & H3)|(c & _ & H4)]]].
        -- discriminate H1.
        -- congruence.
        -- rewrite Hv in Hc'. injection Hc' as <-. congruence.
        -- now elim H4.
    + intros _. exists decoded, u. auto.
  - assert (Hunk : exists c, (exists tok, Some token = Some tok
                                /\ verifyToken (now_seconds w) tok = Some c)
                             /\ find (fun u => user_id u =? claim_id c) (users (db w)) = None)
      by (exists decoded; auto).
    split; [split; auto 6|]. intros H; exfalso; apply H; auto 6.
Qed.

End GateClaims.

(** C1 as stated fails when the store is unreachable: a valid token of an
    existing user is answered 401 although the cookie is present, verifies,
    and the user is in the store. *)
Lemma C1_counterexample :
  let req := request_with (Some (generateToken 1000 1)) JUndefined in
  ~ (responds_with 401 (fst (isAuthenticated req faulty_world))
     <-> token_missing req \/ token_invalid faulty_world req
         \/ user_unknown faulty_world req).
Proof.
  intros req [H _].
  assert (H401 : responds_with 401 (fst (isAuthenticated req faulty_world))).
  { exists unauthorized. split; [vm_compute; reflexivity|reflexivity]. }
  destruct (H H401) as [Hm|[(tok & [= <-] & Hv)|(c & (tok & [= <-] & Hv) & Hu)]].
  - discriminate Hm.
  - vm_compute in Hv. discriminate Hv.
  - vm_compute in Hv. injection Hv as <-. vm_compute in Hu. discriminate Hu.
Qed.

Lemma C1_witness :
  let req := request_with (Some (generateToken 1000 1)) JUndefined in
  fst (isAuthenticated req sample_world) = Ok (Next (attach_user req alice)).
Proof.
  intros req.
  destruct (C1_authentication_gate (P := ref_platform) req sample_world) as [_ H].
  destruct H as (c & u & (tok & Htok & Hv) & Hu & Hr).
  - intros [Hm|[(tok & [= <-] & Hv)|[(c & (tok & [= <-] & Hv) & Hu)|(c & _ & Hf)]]].
    + discriminate Hm.
    + vm_compute in Hv. discriminate Hv.
    + vm_compute in Hv. injection Hv as <-. vm_compute in Hu. discriminate Hu.
    + apply Hf. reflexivity.
  - injection Htok as <-. vm_compute in Hv. injection Hv as <-.
    vm_compute in Hu. injection Hu as <-. exact Hr.
Defined.

(** ** The authorization gate and the route table *)

Section AdminClaims.

Context {P : Platform}.

Lemma isAdmin_cases (req : Request) :
  isAdmin req =
  match req_user req with
  | Some u => if user_isAdmin u then Next req else Respond forbidden
  | None => Respond forbidden
  end.
Proof.
  unfold isAdmin. destruct (req_user req) as [u|]; [|reflexivity].
  now destruct (user_isAdmin u).
Qed.

(** C2: [isAdmin] answers 403 when no user is attached or the attached
    user is not an administrator, as an ordinary response and not a throw;
    for an administrator it passes the request on and [GET /api/auth/admin]
    answers 200 with [{isAdmin: true}]. *)
Theorem C2_authorization_gate (req : Request) (w : World) :
  ((req_user req = None
    \/ exists u, req_user req = Some u /\ user_isAdmin u = false) ->
   run_middleware IsAdmin req w = (Ok (Respond forbidden), w)
   /\ status forbidden = 403)
  /\ (forall u, req_user req = Some u -> user_isAdmin u = true ->
      run_middleware IsAdmin req w = (Ok (Next req), w)
      /\ get_admin req w = (Ok (mkResponse 200 [] (BIsAdmin true)), w))
  /\ (forall u w1,
      isAuthenticated req w = (Ok (Next (attach_user req u)), w1) ->
      run_chain [IsAuthenticated; IsAdmin] get_admin req w
      = (Ok (if user_isAdmin u then mkResponse 200 [] (BIsAdmin true) else forbidden), w1)).
Proof.
  split; [|split].
  - intros H. split; [|reflexivity].
    cbn [run_middleware]. unfold ret. rewrite isAdmin_cases.
    destruct H as [->|(u & -> & ->)]; reflexivity.
  - intros u Hu Ha. split; [|reflexivity].
    cbn [run_middleware]. unfold ret. rewrite isAdmin_cases, Hu, Ha. reflexivity.
  - intros u w1 Hrun.
    cbn [run_chain run_middleware]. unfold bind. rewrite Hrun.
    unfold ret. rewrite isAdmin_cases. cbn [req_user attach_user].
    now destruct (user_isAdmin u).
Qed.

Lemma admin_chain_shape (r : Route) :
  In r registerRoutes -> admin_protected r ->
  exists rest, route_chain r = IsAuthenticated :: IsAdmin :: rest.
Proof.
  unfold admin_protected, registerRoutes, authRoutes. cbn [app].
  intros Hin.
  repeat (destruct Hin as [<-|Hin];
          [cbn [route_chain]; intros Hadm;
           first [eexists; reflexivity
                 | exfalso; cbn [In] in Hadm; intuition discriminate]|]).
  destruct Hin.
Qed.

(** C9: on every admin-protected route [isAuthenticated] is registered
    directly before [isAdmin]; when it answers, that answer ends the request
    and [isAdmin] is not consulted; when it passes, [isAdmin] judges the
    request it handed on.  [isAdmin] itself reads nothing but the attached
    user and leaves the world as it is. *)
Theorem C9_gate_order (r : Route) (handler : Request -> M Response)
    (req : Request) (w : World) :
  In r registerRoutes -> admin_protected r ->
  (exists rest,
     route_chain r = IsAuthenticated :: IsAdmin :: rest
     /\ (forall resp w1, isAuthenticated req w = (Ok (Respond resp), w1) ->
           run_chain (route_chain r) handler req w = (Ok resp, w1))
     /\ (forall req1 w1, isAuthenticated req w = (Ok (Next req1), w1) ->
           run_chain (route_chain r) handler req w
           = match isAdmin req1 with
             | Respond resp => (Ok resp, w1)
             | Next req2 => run_chain rest handler req2 w1
             end))
  /\ run_middleware IsAdmin req w = (Ok (isAdmin req), w)
  /\ (forall cookie payload,
        verdict (isAdmin (mkRequest cookie payload (req_user req)))
        = verdict (isAdmin req)).
Proof.
  intros Hin Hadm. split; [|split].
  - destruct (admin_chain_shape r Hin Hadm) as (rest & ->).
    exists rest. split; [reflexivity|]. split.
    + intros resp w1 H. cbn [run_chain run_middleware]. unfold bind.
      now rewrite H.
    + intros req1 w1 H. cbn [run_chain run_middleware]. unfold bind at 1.
      rewrite H. unfold bind, ret. now destruct (isAdmin req1).
  - reflexivity.
  - intros cookie payload. rewrite !isAdmin_cases. cbn [req_user].
    destruct (req_user req) as [u|]; [|reflexivity].
    now destruct (user_isAdmin u).
Qed.

(** C10: [logout] needs no gate, answers 200 with its confirmation and
    clears the token cookie whatever the request carried; a second logout
    gives the same response and leaves the same cookie state. *)
Theorem C10_logout_idempotent (req : Request) (w : World) (jar : option string) :
  In (mkRoute POST "/api/auth/logout" []) authRoutes
  /\ run_chain [] post_logout req w
     = (Ok (mkResponse 200 [ClearCookie "token"] (BMessage "Logged out successfully")), w)
  /\ (forall r1 w1, post_logout req w = (Ok r1, w1) ->
      apply_cookies jar r1 = None
      /\ forall payload,
           post_logout (request_with (apply_cookies jar r1) payload) w1 = (Ok r1, w1)
           /\ apply_cookies (apply_cookies jar r1) r1 = apply_cookies jar r1).
Proof.
  split; [|split].
  - cbn. auto.
  - reflexivity.
  - intros r1 w1 [= <- <-]. split; [reflexivity|].
    intros payload. split; reflexivity.
Qed.

End AdminClaims.

Lemma C2_witness :
  let req := mkRequest None JUndefined (Some alice) in
  run_middleware IsAdmin req sample_world = (Ok (Respond forbidden), sample_world)
  /\ run_middleware IsAdmin (mkRequest None JUndefined (Some root)) sample_world
     = (Ok (Next (mkRequest None JUndefined (Some root))), sample_world).
Proof.
  intros req. split.
  - apply (C2_authorization_gate (P := ref_platform) req sample_world).
    right. exists alice. split; reflexivity.
  - apply (proj1 (proj2 (C2_authorization_gate (P := ref_platform)
             (mkRequest None JUndefined (Some root)) sample_world)) root);
      reflexivity.
Defined.

Lemma C9_witness :
  let r := mkRoute POST "/api/media" [IsAuthenticated; IsAdmin; Upload "single:file"] in
  exists rest, route_chain r = IsAuthenticated :: IsAdmin :: rest.
Proof.
  intros r.
  destruct (C9_gate_order (P := ref_platform) r (fun _ => ret unauthorized)
              (request_with None JUndefined) sample_world) as [(rest & H & _) _].
  - unfold registerRoutes, authRoutes. cbn. auto 20.
  - unfold admin_protected. cbn. auto.
  - exists rest. exact H.
Defined.

Lemma C10_witness :
  apply_cookies (Some "stale")
    (mkResponse 200 [ClearCookie "token"] (BMessage "Logged out successfully")) = None.
Proof.
  apply (proj2 (proj2 (C10_logout_idempotent (P := ref_platform)
           (request_with (Some "stale") JUndefined) sample_world (Some "stale")))
           _ sample_world).
  reflexivity.
Defined.

(** ** Registration *)

Section RegisterFacts.

Context {P : Platform}.

Lemma getUserByEmail_ok (e : string) (w : World) :
  db_fault (db w) = None ->
  getUserByEmail e w
  = (Ok (find (fun u => String.eqb (user_email u) e) (users (db w))),
     log_event (EvQuery "getUserByEmail") w).
Proof.
  intros Hf. unfold getUserByEmail, db_query.
  rewrite db_log_event, Hf. now destruct w.
Qed.

Lemma getUserByEmail_fault (e msg : string) (w : World) :
  db_fault (db w) = Some msg ->
  getUserByEmail e w = (Throw (JsError msg), log_event (EvQuery "getUserByEmail") w).
Proof.
  intros Hf. unfold getUserByEmail, db_query. now rewrite db_log_event, Hf.
Qed.

Lemma find_none_existsb {A} (f : A -> bool) (l : list A) :
  find f l = None <-> existsb f l = false.
Proof.
  induction l as [|a l IH]; simpl; [tauto|].
  destruct (f a); simpl; [split; discriminate|exact IH].
Qed.

Lemma fresh_id (d : Db) :
  Forall (fun u => user_id u < users_id_seq d) (users d) ->
  existsb (fun u => user_id u =? users_id_seq d) (users d) = false.
Proof.
  intros H. apply not_true_is_false. intros He.
  apply existsb_exists in He as (u & Hin & Heq).
  rewrite Forall_forall in H. specialize (H u Hin). lia.
Qed.

Lemma createUser_ok (userData : InsertUser) (w : World) :
  db_fault (db w) = None ->
  violated_constraint (users (db w)) (inserted_row userData w) = None ->
  createUser userData w
  = (Ok (inserted_row userData w),
     mkWorld (mkDb (users (db w) ++ [inserted_row userData w])%list
                (users_id_seq (db w) + 1) (db_fault (db w)))
       (now_ms w) (seed w) (trace w ++ [EvQuery "createUser"])%list).
Proof.
  intros Hf Hc. unfold createUser, bind, get_world, db_query.
  rewrite db_log_event, Hf.
  fold (inserted_row userData w). now rewrite Hc.
Qed.

Lemma createUser_violation (userData : InsertUser) (w : World) (c : string) :
  db_fault (db w) = None ->
  violated_constraint (users (db w)) (inserted_row userData w) = Some c ->
  createUser userData w
  = (Throw (JsError ("duplicate key value violates unique constraint " ++ c)),
     mkWorld (mkDb (users (db w)) (users_id_seq (db w) + 1) (db_fault (db w)))
       (now_ms w) (seed w) (trace w ++ [EvQuery "createUser"])%list).
Proof.
  intros Hf Hc. unfold createUser, bind, get_world, db_query.
  rewrite db_log_event, Hf.
  fold (inserted_row userData w). now rewrite Hc.
Qed.

Lemma createUser_fault (userData : InsertUser) (w : World) (msg : string) :
  db_fault (db w) = Some msg ->
  createUser userData w = (Throw (JsError msg), log_event (EvQuery "createUser") w).
Proof.
  intros Hf. unfold createUser, bind, get_world, db_query.
  now rewrite db_log_event, Hf.
Qed.

Lemma no_violation (rows : list User) (row : User) :
  existsb (fun u => user_id u =? user_id row) rows = false ->
  existsb (fun u => String.eqb (user_email u) (user_email row)) rows = false ->
  existsb (fun u => String.eqb (user_phone u) (user_phone row)) rows = false ->
  violated_constraint rows row = None.
Proof. intros H1 H2 H3. unfold violated_constraint. now rewrite H1, H2, H3. Qed.

(** [register] on data whose e-mail and phone are free. *)
Lemma register_ok (v : RegisterUser) (w : World) :
  db_fault (db w) = None ->
  email_taken (reg_email v) (db w) = false ->
  phone_taken (reg_phone v) (db w) = false ->
  Forall (fun u => user_id u < users_id_seq (db w)) (users (db w)) ->
  let row := registered_row v w in
  register v w
  = (Ok (row, generateToken (now_seconds w) (user_id row)),
     mkWorld (mkDb (users (db w) ++ [row])%list (users_id_seq (db w) + 1) (db_fault (db w)))
       (now_ms w) (N.succ (seed w))
       (trace w ++ [EvBcryptHash; EvQuery "createUser"])%list).
Proof.
  intros Hf He Hp Hid row.
  unfold register, try_catch, bind at 1, hashPassword.
  unfold bind at 1.
  rewrite createUser_ok.
  - unfold bind, get_world, ret. cbn [inserted_row db now_ms seed trace log_event
      ins_fullName ins_email ins_phone ins_password ins_isAdmin users_id_seq].
    unfold now_seconds. cbn [now_ms user_id].
    subst row. unfold registered_row. cbn [user_id].
    now rewrite <- app_assoc.
  - exact Hf.
  - apply no_violation; cbn [inserted_row db now_ms seed trace log_event
      ins_fullName ins_email ins_phone ins_password ins_isAdmin
      user_id user_email user_phone].
    + now apply fresh_id.
    + exact He.
    + exact Hp.
Qed.

Lemma post_register_created (req : Request) (w : World) (v : RegisterUser) :
  registerUserSchema (req_body req) = (Some v, []) ->
  db_fault (db w) = None ->
  email_taken (reg_email v) (db w) = false ->
  phone_taken (reg_phone v) (db w) = false ->
  Forall (fun u => user_id u < users_id_seq (db w)) (users (db w)) ->
  let row := registered_row v w in
  post_register req w
  = (Ok (mkResponse 201
           [SetCookie "token" (generateToken (now_seconds w) (user_id row))
              token_cookie_options]
           (BUserField row)),
     world_after_register w row).
Proof.
  intros Hv Hf He Hp Hid row.
  unfold post_register, try_catch, bind at 1. rewrite Hv.
  cbn [zod_parse]. unfold ret at 1. unfold bind at 1.
  rewrite getUserByEmail_ok by assumption.
  apply find_none_existsb in He as He'. rewrite He'.
  unfold bind. rewrite register_ok; try assumption.
  unfold ret, world_after_register, now_seconds.
  cbn [fst snd db now_ms seed trace log_event].
  fold row. now rewrite <- app_assoc.
Qed.

Lemma post_register_duplicate (req : Request) (w : World) (v : RegisterUser) (u0 : User) :
  registerUserSchema (req_body req) = (Some v, []) ->
  db_fault (db w) = None ->
  find (fun u => String.eqb (user_email u) (reg_email v)) (users (db w)) = Some u0 ->
  post_register req w
  = (Ok (json_message 400 "Email already in use"),
     log_event (EvQuery "getUserByEmail") w).
Proof.
  intros Hv Hf Hu.
  unfold post_register, try_catch, bind at 1. rewrite Hv.
  cbn [zod_parse]. unfold ret at 1. unfold bind.
  rewrite getUserByEmail_ok by assumption. now rewrite Hu.
Qed.

Lemma post_register_invalid (req : Request) (w : World) (o : option RegisterUser)
    (i : ZodIssue) (issues : list ZodIssue) :
  registerUserSchema (req_body req) = (o, i :: issues) ->
  post_register req w
  = (Ok (mkResponse 400 [] (BErrors "Validation error" (i :: issues))), w).
Proof.
  intros Hv. unfold post_register, try_catch, bind. rewrite Hv.
  now destruct o.
Qed.

End RegisterFacts.

Lemma length_append (a b : string) :
  String.length (a ++ b) = (String.length a + String.length b)%nat.
Proof. induction a as [|c r IH]; simpl; [reflexivity|now rewrite IH]. Qed.

Lemma after_first_app (sep : ascii) (a b : string) :
  JsString.lacks sep a = true -> after_first sep (a ++ String sep b) = Some b.
Proof.
  induction a as [|c r IH]; cbn [append after_first JsString.lacks].
  - intros _. now rewrite Ascii.eqb_refl.
  - intros H. apply andb_true_iff in H as [Hc Hr].
    apply negb_true_iff in Hc. rewrite Hc. now apply IH.
Qed.

(** The reference platform meets the bcrypt contract. *)
Lemma ref_bcrypt_contract : BcryptContract ref_platform.
Proof.
  split; intros n rounds pw; cbn [bcrypt_compare bcrypt_hash gen_salt ref_platform].
  - unfold ref_bcrypt_compare, ref_bcrypt_hash, ref_gen_salt.
    rewrite after_first_app by (apply lacks_dec; reflexivity || discriminate).
    apply String.eqb_refl.
  - unfold ref_bcrypt_hash. intros H.
    apply (f_equal String.length) in H. rewrite length_append in H.
    cbn [String.length] in H. lia.
Qed.

Section SchemaFacts.

Context {P : Platform}.

Lemma registerUserSchema_strings (fields : list (string * JsValue))
    (f e p pw c : string) :
  get_field "fullName" fields = JString f ->
  get_field "email" fields = JString e ->
  get_field "phone" fields = JString p ->
  get_field "password" fields = JString pw ->
  get_field "confirmPassword" fields = JString c ->
  registerUserSchema (JObject fields)
  = (Some (mkRegisterUser f e p pw c), string_payload_issues e p pw c).
Proof.
  intros Hf He Hp Hw Hc.
  unfold registerUserSchema, registerUser_object, zod_refine.
  rewrite Hf, He, Hp, Hw, Hc.
  unfold zod_string, run_checks, email_check, string_payload_issues.
  cbn [fst snd flat_map check_test check_code check_message app
       reg_password reg_confirmPassword].
  destruct (is_email e), (phone_regex p), (min_length 8 pw), (String.eqb pw c);
    reflexivity.
Qed.

(** The schema reads the five form keys and nothing else. *)
Lemma registerUserSchema_reads_form_keys (fields fields' : list (string * JsValue)) :
  (forall k, In k ["fullName"; "email"; "phone"; "password"; "confirmPassword"] ->
             get_field k fields = get_field k fields') ->
  registerUserSchema (JObject fields) = registerUserSchema (JObject fields').
Proof.
  intros H. unfold registerUserSchema, registerUser_object.
  rewrite !H by (cbn [In]; auto 10). reflexivity.
Qed.

End SchemaFacts.




Section RegisterClaims.

Context {P : Platform}.

(** C3: a valid registration payload whose e-mail and phone are not yet in
    the store, and whose row the columns of the users table can hold, makes
    [POST /register] append exactly one user; that user is not an
    administrator whatever the payload carried beside the five form fields,
    and its password field holds a bcrypt hash which [compare] accepts for
    the submitted password and which differs from it. *)
Theorem C3_register_creates_plain_user {B : BcryptContract P}
    (req : Request) (w : World) (v : RegisterUser) :
  registerUserSchema (req_body req) = (Some v, []) ->
  db_fault (db w) = None ->
  db_ok (db w) ->
  email_taken (reg_email v) (db w) = false ->
  phone_taken (reg_phone v) (db w) = false ->
  columns_hold (registered_row v w) = true ->
  (exists u w' cookies,
     post_register req w = (Ok (mkResponse 201 cookies (BUserField u)), w')
     /\ users (db w') = (users (db w) ++ [u])%list
     /\ user_isAdmin u = false
     /\ user_fullName u = reg_fullName v
     /\ user_email u = reg_email v
     /\ user_phone u = reg_phone v
     /\ bcrypt_compare (reg_password v) (user_password u) = true
     /\ user_password u <> reg_password v)
  /\ (forall fields extra,
        req_body req = JObject fields ->
        registerUserSchema (JObject (("isAdmin", extra) :: fields))
        = registerUserSchema (JObject fields)).
Proof.
  intros Hv Hf (Hid & _) He Hp _. split.
  - eexists (registered_row v w), _, _. split.
    + apply post_register_created; assumption.
    + cbn [world_after_register db users registered_row user_isAdmin user_fullName
           user_email user_phone user_password].
      repeat split.
      * apply compare_own_hash.
      * apply hash_is_not_plaintext.
  - intros fields extra _. apply registerUserSchema_reads_form_keys.
    intros k Hk. cbn [get_field].
    destruct (String.eqb_spec "isAdmin" k) as [<-|]; [|reflexivity].
    cbn [In] in Hk. intuition discriminate.
Qed.







End RegisterClaims.

Lemma sample_db_ok : db_ok sample_db.
Proof.
  unfold db_ok, sample_db. cbn [users users_id_seq map].
  repeat split.
  - repeat constructor; cbn [alice root user_id]; lia.
  - repeat constructor; cbn [alice root user_id In]; intuition discriminate.
  - repeat constructor; cbn [alice root user_email In]; intuition discriminate.
  - repeat constructor; cbn [alice root user_phone In]; intuition discriminate.
Qed.

Lemma C3_witness :
  exists u w' cookies,
    post_register (request_with None carol_form) sample_world
    = (Ok (mkResponse 201 cookies (BUserField u)), w')
    /\ users (db w') = [alice; root; u]
    /\ user_isAdmin u = false
    /\ bcrypt_compare "s3cretpass" (user_password u) = true
    /\ user_password u <> "s3cretpass".
Proof.
  destruct (C3_register_creates_plain_user (P := ref_platform) (B := ref_bcrypt_contract)
              (request_with None carol_form) sample_world carol_data)
    as [(u & w' & cookies & H1 & H2 & H3 & _ & _ & _ & H4 & H5) _].
  - vm_compute. reflexivity.
  - reflexivity.
  - exact sample_db_ok.
  - vm_compute. reflexivity.
  - vm_compute. reflexivity.
  - vm_compute. reflexivity.
  - exists u, w', cookies. auto.
Defined.




(** ** Login *)

Section LoginFacts.

Context {P : Platform}.

Lemma login_unknown_email (c : LoginCredentials) (w : World) :
  db_fault (db w) = None ->
  find (fun u => String.eqb (user_email u) (cred_email c)) (users (db w)) = None ->
  login c w
  = (Throw (JsError "Invalid email or password"),
     mkWorld (db w) (now_ms w) (seed w)
       (trace w ++ [EvQuery "getUserByEmail";
                    EvConsoleError "Login error:" (JsError "Invalid email or password")])%list).
Proof.
  intros Hf Hu. unfold login, try_catch, bind at 1.
  rewrite getUserByEmail_ok, Hu by assumption.
  unfold throw, bind, console_error, emit, log_event.
  cbn [db now_ms seed trace]. now rewrite <- app_assoc.
Qed.

Lemma login_wrong_password (c : LoginCredentials) (w : World) (u : User) :
  db_fault (db w) = None ->
  find (fun u => String.eqb (user_email u) (cred_email c)) (users (db w)) = Some u ->
  bcrypt_compare (cred_password c) (user_password u) = false ->
  login c w
  = (Throw (JsError "Invalid email or password"),
     mkWorld (db w) (now_ms w) (seed w)
       (trace w ++ [EvQuery "getUserByEmail"; EvBcryptCompare;
                    EvConsoleError "Login error:" (JsError "Invalid email or password")])%list).
Proof.
  intros Hf Hu Hc. unfold login, try_catch, bind at 1.
  rewrite getUserByEmail_ok, Hu by assumption.
  unfold comparePasswords, bind, emit, ret. rewrite Hc.
  unfold throw, console_error, emit, log_event.
  cbn [negb db now_ms seed trace]. now rewrite <- !app_assoc.
Qed.

Lemma login_ok (c : LoginCredentials) (w : World) (u : User) :
  db_fault (db w) = None ->
  find (fun u => String.eqb (user_email u) (cred_email c)) (users (db w)) = Some u ->
  bcrypt_compare (cred_password c) (user_password u) = true ->
  login c w
  = (Ok (u, generateToken (now_seconds w) (user_id u)),
     mkWorld (db w) (now_ms w) (seed w)
       (trace w ++ [EvQuery "getUserByEmail"; EvBcryptCompare])%list).
Proof.
  intros Hf Hu Hc. unfold login, try_catch, bind at 1.
  rewrite getUserByEmail_ok, Hu by assumption.
  unfold comparePasswords, bind, emit, ret, get_world. rewrite Hc.
  unfold log_event, now_seconds.
  cbn [negb db now_ms seed trace]. now rewrite <- !app_assoc.
Qed.

Lemma login_fault (c : LoginCredentials) (w : World) (msg : string) :
  db_fault (db w) = Some msg ->
  login c w
  = (Throw (JsError msg),
     mkWorld (db w) (now_ms w) (seed w)
       (trace w ++ [EvQuery "getUserByEmail";
                    EvConsoleError "Login error:" (JsError msg)])%list).
Proof.
  intros Hf. unfold login, try_catch, bind at 1.
  rewrite getUserByEmail_fault with (msg := msg) by assumption.
  unfold throw, bind, console_error, emit, log_event.
  cbn [db now_ms seed trace]. now rewrite <- app_assoc.
Qed.

(** [POST /login] once the body has passed [loginSchema]. *)
Lemma post_login_valid (req : Request) (w : World) (c : LoginCredentials) :
  loginSchema (req_body req) = (Some c, []) ->
  post_login req w
  = match login c w with
    | (Ok r, w') =>
        (Ok (mkResponse 200 [SetCookie "token" (snd r) token_cookie_options]
               (BUserField (fst r))), w')
    | (Throw (ZodError errors), w') =>
        (Ok (mkResponse 400 [] (BErrors "Validation error" errors)), w')
    | (Throw (JsError message), w') => (Ok (json_message 401 message), w')
    | (Throw (NonError x), w') =>
        (Ok (json_message 500 "Failed to login"),
         log_event (EvConsoleError "Login error:" (NonError x)) w')
    end.
Proof.
  intros Hv. unfold post_login, try_catch, bind at 1. rewrite Hv.
  cbn [zod_parse]. unfold ret at 1, bind at 1.
  destruct (login c w) as [[r|e] w']; [reflexivity|].
  now destruct e.
Qed.

End LoginFacts.

Section LoginClaims.

Context {P : Platform}.

(** C4 (amended): an unknown e-mail and a wrong password for an existing
    e-mail get the same response, 401 with the one message "Invalid email or
    password", and nothing else; correct credentials get a token which
    [verifyToken] accepts and which decodes to that user's id. *)
Theorem C4_login_uniform_failure (w : World) (req1 req2 : Request)
    (c1 c2 : LoginCredentials) (u : User) :
  db_fault (db w) = None ->
  loginSchema (req_body req1) = (Some c1, []) ->
  loginSchema (req_body req2) = (Some c2, []) ->
  find (fun x => String.eqb (user_email x) (cred_email c1)) (users (db w)) = None ->
  find (fun x => String.eqb (user_email x) (cred_email c2)) (users (db w)) = Some u ->
  (bcrypt_compare (cred_password c2) (user_password u) = false ->
   fst (post_login req1 w) = Ok invalid_credentials
   /\ fst (post_login req2 w) = Ok invalid_credentials)
  /\ (bcrypt_compare (cred_password c2) (user_password u) = true ->
      fst (post_login req1 w) = Ok invalid_credentials
      /\ exists token c,
           fst (post_login req2 w)
           = Ok (mkResponse 200 [SetCookie "token" token token_cookie_options]
                   (BUserField u))
           /\ verifyToken (now_seconds w) token = Some c
           /\ claim_id c = user_id u).
Proof.
  intros Hf Hv1 Hv2 Hu1 Hu2.
  assert (H1 : fst (post_login req1 w) = Ok invalid_credentials).
  { rewrite (post_login_valid req1 w c1 Hv1), login_unknown_email by assumption.
    reflexivity. }
  split; intros Hc; (split; [exact H1|]).
  - rewrite (post_login_valid req2 w c2 Hv2), (login_wrong_password c2 w u) by assumption.
    reflexivity.
  - exists (generateToken (now_seconds w) (user_id u)),
      (mkClaims (user_id u) (now_seconds w) (now_seconds w + expiresIn_7d)).
    rewrite (post_login_valid req2 w c2 Hv2), (login_ok c2 w u) by assumption.
    split; [reflexivity|]. split; [apply verifyToken_fresh|reflexivity].
Qed.

End LoginClaims.

Lemma C4_witness :
  fst (post_login (request_with None (login_form "nobody@example.com" "whatever"))
         sample_world) = Ok invalid_credentials
  /\ fst (post_login (request_with None (login_form "alice@example.com" "wrong"))
            sample_world) = Ok invalid_credentials.
Proof.
  apply (C4_login_uniform_failure (P := ref_platform) sample_world
           (request_with None (login_form "nobody@example.com" "whatever"))
           (request_with None (login_form "alice@example.com" "wrong"))
           (mkLoginCredentials "nobody@example.com" "whatever")
           (mkLoginCredentials "alice@example.com" "wrong") alice);
    vm_compute; reflexivity.
Defined.

(** C4 as stated fails on timing parity: the two failures answer alike, but
    only the wrong-password one performs a password comparison. *)
Lemma C4_counterexample :
  let unknown := post_login (request_with None (login_form "nobody@example.com" "whatever"))
                   sample_world in
  let wrong := post_login (request_with None (login_form "alice@example.com" "wrong"))
                 sample_world in
  fst unknown = fst wrong
  /\ bcrypt_compares (snd unknown) = 0%nat
  /\ bcrypt_compares (snd wrong) = 1%nat
  /\ bcrypt_compares (snd unknown) <> bcrypt_compares (snd wrong).
Proof.
  cbv zeta. repeat split; try (vm_compute; reflexivity).
  vm_compute. discriminate.
Qed.

(** ** Failures of the store *)

Section FailureClaims.

Context {P : Platform}.

(** A handler that is one [try]/[catch] whose [catch] block always answers
    lets nothing escape. *)
Lemma try_catch_total {A} (m : M A) (h : Thrown -> M A) :
  (forall e w, exists r w', h e w = (Ok r, w')) ->
  forall w, exists r w', try_catch m h w = (Ok r, w').
Proof.
  intros Hh w. unfold try_catch.
  destruct (m w) as [[a|e] w']; [eauto|apply Hh].
Qed.

Lemma isAuthenticated_total (req : Request) (w : World) :
  exists r w', isAuthenticated req w = (Ok r, w').
Proof.
  apply try_catch_total. intros e w0. unfold bind, console_error, emit, ret. eauto.
Qed.

Lemma post_register_total (req : Request) (w : World) :
  exists r w', post_register req w = (Ok r, w').
Proof.
  apply try_catch_total. intros e w0.
  destruct e; unfold bind, console_error, emit, ret; eauto.
Qed.

Lemma post_login_total (req : Request) (w : World) :
  exists r w', post_login req w = (Ok r, w').
Proof.
  apply try_catch_total. intros e w0.
  destruct e; unfold bind, console_error, emit, ret; eauto.
Qed.

Lemma gated_route_total (rest : list Middleware) (handler : Request -> M Response)
    (req : Request) (w : World) :
  (forall r w0, exists resp w', run_chain rest handler r w0 = (Ok resp, w')) ->
  exists resp w', run_chain (IsAuthenticated :: rest) handler req w = (Ok resp, w').
Proof.
  intros Hrest. cbn [run_chain run_middleware]. unfold bind.
  destruct (isAuthenticated_total req w) as (r & w' & ->).
  destruct r as [resp|req']; [unfold ret; eauto|apply Hrest].
Qed.

Lemma post_register_fault (req : Request) (w : World) (v : RegisterUser) (msg : string) :
  registerUserSchema (req_body req) = (Some v, []) ->
  db_fault (db w) = Some msg ->
  post_register req w
  = (Ok (json_message 500 "Failed to register user"),
     mkWorld (db w) (now_ms w) (seed w)
       (trace w ++ [EvQuery "getUserByEmail";
                    EvConsoleError "Registration error:" (JsError msg)])%list).
Proof.
  intros Hv Hf. unfold post_register, try_catch, bind at 1. rewrite Hv.
  cbn [zod_parse]. unfold ret at 1, bind at 1.
  rewrite getUserByEmail_fault with (msg := msg) by assumption.
  unfold bind, console_error, emit, ret, log_event.
  cbn [db now_ms seed trace]. now rewrite <- app_assoc.
Qed.

(** The insert is refused by the phone constraint: [register] wraps the
    failure and the route answers the generic 500. *)
Lemma post_register_phone_taken (req : Request) (w : World) (v : RegisterUser) :
  registerUserSchema (req_body req) = (Some v, []) ->
  db_fault (db w) = None ->
  email_taken (reg_email v) (db w) = false ->
  phone_taken (reg_phone v) (db w) = true ->
  Forall (fun u => user_id u < users_id_seq (db w)) (users (db w)) ->
  exists w',
    post_register req w = (Ok (json_message 500 "Failed to register user"), w')
    /\ users (db w') = users (db w)
    /\ In (EvConsoleError "Registration error:"
             (JsError "duplicate key value violates unique constraint users_phone_unique"))
          (trace w').
Proof.
  intros Hv Hf He Hp Hid.
  unfold post_register, try_catch, bind at 1. rewrite Hv.
  cbn [zod_parse]. unfold ret at 1, bind at 1.
  rewrite getUserByEmail_ok by assumption.
  apply find_none_existsb in He as He'. rewrite He'.
  unfold bind at 1, register, try_catch, bind at 1, hashPassword. unfold bind at 1.
  rewrite createUser_violation with (c := "users_phone_unique").
  - unfold bind, console_error, emit, throw, ret, log_event.
    cbn [db now_ms seed trace users]. eexists. split; [reflexivity|].
    cbn [db users trace]. split; [reflexivity|].
    rewrite !in_app_iff. cbn [In]. auto 10.
  - exact Hf.
  - unfold violated_constraint.
    cbn [inserted_row db now_ms seed trace log_event ins_fullName ins_email ins_phone
         ins_password ins_isAdmin user_id user_email user_phone].
    rewrite fresh_id by assumption.
    unfold email_taken in He. rewrite He.
    unfold phone_taken in Hp. now rewrite Hp.
Qed.

(** C7 (amended): no auth endpoint lets an error escape; a store failure
    during registration is answered 500 with the generic message "Failed to
    register user", and one during the authentication middleware 401 with
    the generic "Unauthorized"; in both the detail goes to the server log
    only. *)
Theorem C7_store_failures_are_caught (req : Request) (w : World) :
  ((exists r w', post_register req w = (Ok r, w'))
   /\ (exists r w', post_login req w = (Ok r, w'))
   /\ (exists r w', post_logout req w = (Ok r, w'))
   /\ (exists r w', run_chain [IsAuthenticated] get_user req w = (Ok r, w'))
   /\ (exists r w', run_chain [IsAuthenticated; IsAdmin] get_admin req w = (Ok r, w')))
  /\ (forall msg v,
        db_fault (db w) = Some msg ->
        registerUserSchema (req_body req) = (Some v, []) ->
        exists w',
          post_register req w = (Ok (json_message 500 "Failed to register user"), w')
          /\ In (EvConsoleError "Registration error:" (JsError msg)) (trace w'))
  /\ (forall msg c,
        db_fault (db w) = Some msg ->
        token_decodes w req c ->
        exists w',
          isAuthenticated req w = (Ok (Respond unauthorized), w')
          /\ In (EvConsoleError "Authentication error:" (JsError msg)) (trace w')).
Proof.
  split; [|split].
  - split; [apply post_register_total|].
    split; [apply post_login_total|].
    split; [unfold post_logout, ret; eauto|].
    split.
    + apply gated_route_total. intros r w0. cbn [run_chain]. unfold get_user, ret. eauto.
    + apply gated_route_total. intros r w0. cbn [run_chain run_middleware].
      unfold bind, ret. destruct (isAdmin r); [eauto|].
      unfold get_admin, ret. eauto.
  - intros msg v Hf Hv. eexists. split; [exact (post_register_fault req w v msg Hv Hf)|].
    cbn [trace]. rewrite in_app_iff. cbn [In]. auto.
  - intros msg c Hf (tok & Hc & Hvt).
    rewrite isAuthenticated_run, Hc.
    destruct (String.eqb_spec tok "") as [->|_].
    { rewrite verifyToken_empty in Hvt. discriminate. }
    rewrite Hvt, Hf. eexists. split; [reflexivity|].
    cbn [log_event trace]. rewrite !in_app_iff. cbn [In]. auto.
Qed.

End FailureClaims.

Lemma C7_witness :
  exists w',
    post_register (request_with None carol_form) faulty_world
    = (Ok (json_message 500 "Failed to register user"), w')
    /\ In (EvConsoleError "Registration error:"
             (JsError "Connection terminated unexpectedly")) (trace w').
Proof.
  apply (proj1 (proj2 (C7_store_failures_are_caught (P := ref_platform)
           (request_with None carol_form) faulty_world))
           "Connection terminated unexpectedly" carol_data).
  - reflexivity.
  - vm_compute. reflexivity.
Defined.

(** C7 as stated fails for login and for the middleware: with the store
    unreachable, [POST /login] answers 401 and sends the store's own error
    message, and [isAuthenticated] answers 401; neither answers 500. *)
Lemma C7_counterexample :
  fst (post_login (request_with None (login_form "alice@example.com" "correct horse"))
         faulty_world)
  = Ok (json_message 401 "Connection terminated unexpectedly")
  /\ fst (isAuthenticated (request_with (Some (generateToken 1000 1)) JUndefined)
            faulty_world)
     = Ok (Respond (json_message 401 "Unauthorized")).
Proof. split; vm_compute; reflexivity. Qed.

(** * Further properties *)

(** ** Relations every step of a handler respects *)

Section StepRules.

Variable R : World -> World -> Prop.
Hypothesis R_refl : forall w, R w w.
Hypothesis R_trans : forall a b c, R a b -> R b c -> R a c.

Lemma steps_ret {A} (a : A) : steps_within R (ret a).
Proof. intros w. apply R_refl. Qed.

Lemma steps_throw {A} (e : Thrown) : steps_within R (@throw A e).
Proof. intros w. apply R_refl. Qed.

Lemma steps_get_world : steps_within R get_world.
Proof. intros w. apply R_refl. Qed.

Lemma steps_bind {A B} (m : M A) (k : A -> M B) :
  steps_within R m -> (forall a, steps_within R (k a)) ->
  steps_within R (bind m k).
Proof.
  intros Hm Hk w. unfold bind. specialize (Hm w).
  destruct (m w) as [[a|e] w1]; cbn [snd] in *; [|exact Hm].
  apply R_trans with w1; [exact Hm|apply Hk].
Qed.

Lemma steps_try_catch {A} (m : M A) (h : Thrown -> M A) :
  steps_within R m -> (forall e, steps_within R (h e)) ->
  steps_within R (try_catch m h).
Proof.
  intros Hm Hh w. unfold try_catch. specialize (Hm w).
  destruct (m w) as [[a|e] w1]; cbn [snd] in *; [exact Hm|].
  apply R_trans with w1; [exact Hm|apply Hh].
Qed.

Hypothesis R_db : db_relation R.

Lemma steps_emit (e : Event) : steps_within R (emit e).
Proof. intros w. apply R_db. reflexivity. Qed.

Lemma steps_console_error (label : string) (e : Thrown) :
  steps_within R (console_error label e).
Proof. apply steps_emit. Qed.

Lemma steps_read_query {A} (name : string) (f : Db -> Outcome A) :
  steps_within R (db_query name (fun d => (f d, d))).
Proof.
  intros w. apply R_db. unfold db_query. rewrite db_log_event.
  destruct (db_fault (db w)); [reflexivity|]. now destruct w.
Qed.

End StepRules.

Lemma keeps_db_ok_refl (w : World) : keeps_db_ok w w.
Proof. intros H. exact H. Qed.

Lemma keeps_db_ok_trans (a b c : World) :
  keeps_db_ok a b -> keeps_db_ok b c -> keeps_db_ok a c.
Proof. unfold keeps_db_ok. auto. Qed.

Lemma only_adds_refl (w : World) : only_adds_plain_users w w.
Proof. exists []. split; [now rewrite app_nil_r|constructor]. Qed.

Lemma only_adds_trans (a b c : World) :
  only_adds_plain_users a b -> only_adds_plain_users b c -> only_adds_plain_users a c.
Proof.
  intros (x & Hx & Fx) (y & Hy & Fy). exists (x ++ y)%list. split.
  - now rewrite Hy, Hx, app_assoc.
  - apply Forall_app. now split.
Qed.

Lemma same_db_refl (w : World) : same_db w w.
Proof. reflexivity. Qed.

Lemma same_db_trans (a b c : World) : same_db a b -> same_db b c -> same_db a c.
Proof. unfold same_db. congruence. Qed.

Lemma keeps_db_ok_db : db_relation keeps_db_ok.
Proof. intros w w' H Hok. now rewrite H. Qed.

Lemma only_adds_db : db_relation only_adds_plain_users.
Proof.
  intros w w' H. exists []. rewrite H, app_nil_r. split; [reflexivity|constructor].
Qed.

Lemma same_db_db : db_relation same_db.
Proof. intros w w' H. exact H. Qed.

Section HandlerSteps.

Context {P : Platform}.
Variable R : World -> World -> Prop.
Hypothesis R_refl : forall w, R w w.
Hypothesis R_trans : forall a b c, R a b -> R b c -> R a c.
Hypothesis R_db : db_relation R.

Ltac step :=
  first
    [ apply steps_ret; assumption
    | apply steps_throw; assumption
    | apply steps_get_world; assumption
    | apply steps_console_error; assumption
    | apply steps_emit; assumption
    | apply steps_read_query; assumption
    | apply steps_bind; [assumption | | intros ?]
    | apply steps_try_catch; [assumption | | intros ?] ].

Lemma steps_zod_parse {A} (r : ParseReturn A) : steps_within R (zod_parse r).
Proof.
  destruct r as [[v|] [|i issues]]; cbn [zod_parse]; step.
Qed.

Lemma steps_hashPassword (pw : string) : steps_within R (hashPassword pw).
Proof. intros w. apply R_db. reflexivity. Qed.

Lemma steps_comparePasswords (pw h : string) : steps_within R (comparePasswords pw h).
Proof. unfold comparePasswords. repeat step. Qed.

Lemma steps_getUserById (uid : Z) : steps_within R (getUserById uid).
Proof.
  unfold getUserById.
  apply (steps_read_query R R_db "getUserById"
           (fun d => Ok (find (fun u => user_id u =? uid) (users d)))).
Qed.

Lemma steps_getUserByEmail (e : string) : steps_within R (getUserByEmail e).
Proof.
  unfold getUserByEmail.
  apply (steps_read_query R R_db "getUserByEmail"
           (fun d => Ok (find (fun u => String.eqb (user_email u) e) (users d)))).
Qed.

Lemma steps_isAuthenticated (req : Request) : steps_within R (isAuthenticated req).
Proof.
  unfold isAuthenticated. step; [|repeat step].
  destruct (cookie_token req) as [token|]; [|step].
  destruct (no_token (Some token)); [step|].
  step; [step|].
  destruct (verifyToken _ token); [|step].
  step; [apply steps_getUserById|].
  destruct a0; step.
Qed.

Lemma steps_login (c : LoginCredentials) : steps_within R (login c).
Proof.
  unfold login. step; [|repeat step].
  step; [apply steps_getUserByEmail|].
  destruct a as [u|]; [|step].
  step; [apply steps_comparePasswords|].
  destruct (negb a); repeat step.
Qed.

Lemma steps_post_login (req : Request) : steps_within R (post_login req).
Proof.
  unfold post_login. step.
  - step; [apply steps_zod_parse|]. step; [apply steps_login|step].
  - destruct e; repeat step.
Qed.

Lemma steps_post_logout (req : Request) : steps_within R (post_logout req).
Proof. unfold post_logout. step. Qed.

Hypothesis R_create : forall userData,
  ins_isAdmin userData = Some false -> steps_within R (createUser userData).

Lemma steps_register (v : RegisterUser) : steps_within R (register v).
Proof.
  unfold register. step; [|repeat step].
  step; [apply steps_hashPassword|].
  step; [now apply R_create|]. repeat step.
Qed.

Lemma steps_post_register (req : Request) : steps_within R (post_register req).
Proof.
  unfold post_register. step.
  - step; [apply steps_zod_parse|].
    step; [apply steps_getUserByEmail|].
    destruct a0; [step|]. step; [apply steps_register|step].
  - destruct e; repeat step.
Qed.

End HandlerSteps.

(** ** The users table *)

Lemma NoDup_map_snoc {A B} (f : A -> B) (l : list A) (x : A) :
  NoDup (map f l) -> ~ In (f x) (map f l) -> NoDup (map f (l ++ [x])).
Proof.
  induction l as [|a l IH]; cbn [map app]; intros Hnd Hin.
  - constructor; [intros []|constructor].
  - inversion Hnd as [|? ? Ha Hl]; subst. constructor.
    + rewrite map_app, in_app_iff. cbn [map In]. intros [H|[H|[]]].
      * now apply Ha.
      * apply Hin. left. now symmetry.
    + apply IH; [assumption|]. intros H. apply Hin. now right.
Qed.

Lemma existsb_false_not_in {A B} (f : A -> B) (eqb : B -> B -> bool) (l : list A) (b : B) :
  (forall x y, eqb x y = true <-> x = y) ->
  existsb (fun a => eqb (f a) b) l = false -> ~ In b (map f l).
Proof.
  intros Heq He Hin. apply in_map_iff in Hin as (a & Hfa & Ha).
  assert (existsb (fun a => eqb (f a) b) l = true); [|congruence].
  apply existsb_exists. exists a. split; [assumption|]. now apply Heq.
Qed.

Lemma violation_none_inv (rows : list User) (row : User) :
  violated_constraint rows row = None ->
  existsb (fun u => user_id u =? user_id row) rows = false
  /\ existsb (fun u => String.eqb (user_email u) (user_email row)) rows = false
  /\ existsb (fun u => String.eqb (user_phone u) (user_phone row)) rows = false.
Proof.
  unfold violated_constraint.
  destruct (existsb (fun u => user_id u =? user_id row) rows); [discriminate|].
  destruct (existsb (fun u => String.eqb (user_email u) (user_email row)) rows);
    [discriminate|].
  destruct (existsb (fun u => String.eqb (user_phone u) (user_phone row)) rows);
    [discriminate|auto].
Qed.

Section TableFacts.

Context {P : Platform}.

(** What [createUser] leaves behind, case by case. *)
Lemma createUser_cases (userData : InsertUser) (w : World) :
  (exists msg, db_fault (db w) = Some msg /\ db (snd (createUser userData w)) = db w)
  \/ (db_fault (db w) = None
      /\ exists c, violated_constraint (users (db w)) (inserted_row userData w) = Some c
                   /\ db (snd (createUser userData w))
                      = mkDb (users (db w)) (users_id_seq (db w) + 1) None)
  \/ (db_fault (db w) = None
      /\ violated_constraint (users (db w)) (inserted_row userData w) = None
      /\ db (snd (createUser userData w))
         = mkDb (users (db w) ++ [inserted_row userData w])%list
             (users_id_seq (db w) + 1) None).
Proof.
  destruct (db_fault (db w)) as [msg|] eqn:Hf.
  - left. exists msg. split; [reflexivity|]. now rewrite (createUser_fault _ _ msg).
  - right.
    destruct (violated_constraint (users (db w)) (inserted_row userData w)) as [c|] eqn:Hc.
    + left. split; [reflexivity|]. exists c. split; [reflexivity|].
      rewrite (createUser_violation _ _ c) by assumption. cbn [snd db]. now rewrite Hf.
    + right. split; [reflexivity|]. split; [reflexivity|].
      rewrite createUser_ok by assumption. cbn [snd db]. now rewrite Hf.
Qed.

Lemma createUser_keeps_db_ok (userData : InsertUser) :
  steps_within keeps_db_ok (createUser userData).
Proof.
  intros w (Hid & Hn1 & Hn2 & Hn3).
  destruct (createUser_cases userData w)
    as [(msg & _ & ->)|[(_ & c & _ & ->)|(_ & Hc & ->)]].
  - repeat split; assumption.
  - cbn [db_ok users users_id_seq]. unfold db_ok. cbn [users users_id_seq].
    repeat split; try assumption.
    eapply Forall_impl; [|exact Hid]. cbn beta. intros u Hu. lia.
  - apply violation_none_inv in Hc as (H1 & H2 & H3).
    unfold db_ok. cbn [users users_id_seq]. repeat split.
    + apply Forall_app. split.
      * eapply Forall_impl; [|exact Hid]. cbn beta. intros u Hu. lia.
      * repeat constructor. cbn [inserted_row user_id]. lia.
    + apply NoDup_map_snoc; [assumption|].
      apply (existsb_false_not_in user_id Z.eqb); [apply Z.eqb_eq|exact H1].
    + apply NoDup_map_snoc; [assumption|].
      apply (existsb_false_not_in user_email String.eqb); [apply String.eqb_eq|exact H2].
    + apply NoDup_map_snoc; [assumption|].
      apply (existsb_false_not_in user_phone String.eqb); [apply String.eqb_eq|exact H3].
Qed.

Lemma createUser_only_adds (userData : InsertUser) :
  ins_isAdmin userData = Some false ->
  steps_within only_adds_plain_users (createUser userData).
Proof.
  intros Hplain w.
  destruct (createUser_cases userData w)
    as [(msg & _ & H)|[(_ & c & _ & H)|(_ & _ & H)]]; unfold only_adds_plain_users;
    rewrite H; cbn [users].
  - exists []. rewrite app_nil_r. split; [reflexivity|constructor].
  - exists []. rewrite app_nil_r. split; [reflexivity|constructor].
  - exists [inserted_row userData w]. split; [reflexivity|].
    repeat constructor. cbn [inserted_row user_isAdmin]. now rewrite Hplain.
Qed.

(** X1: [createUser] keeps the users table well formed (ids below the
    sequence; ids, e-mails and phones pairwise distinct), whether the insert
    goes through, is refused by a constraint, or the store is unreachable. *)
Theorem createUser_preserves_constraints (userData : InsertUser) (w : World) :
  db_ok (db w) -> db_ok (db (snd (createUser userData w))).
Proof. apply createUser_keeps_db_ok. Qed.

(** X2: [POST /register] keeps the users table well formed on every
    request, valid or not, in every state of the store. *)
Theorem post_register_preserves_constraints (req : Request) (w : World) :
  db_ok (db w) -> db_ok (db (snd (post_register req w))).
Proof.
  apply (steps_post_register keeps_db_ok keeps_db_ok_refl keeps_db_ok_trans keeps_db_ok_db).
  intros userData _. apply createUser_keeps_db_ok.
Qed.

(** X3: [POST /register] never changes or removes an existing row and never
    stores an administrator: whatever the request, the table afterwards is
    the old one followed by rows whose [isAdmin] is false. *)
Theorem post_register_only_adds_plain_users (req : Request) (w : World) :
  exists extra,
    users (db (snd (post_register req w))) = (users (db w) ++ extra)%list
    /\ Forall (fun u => user_isAdmin u = false) extra.
Proof.
  apply (steps_post_register only_adds_plain_users only_adds_refl only_adds_trans
           only_adds_db).
  intros userData H. now apply createUser_only_adds.
Qed.

Lemma isAuthenticated_same_db (req : Request) (w : World) :
  db (snd (isAuthenticated req w)) = db w.
Proof.
  apply (steps_isAuthenticated same_db same_db_refl same_db_trans same_db_db).
Qed.

(** X4: the authentication middleware, login and logout never write to the
    database. *)
Theorem auth_reads_only (req : Request) (w : World) :
  db (snd (isAuthenticated req w)) = db w
  /\ db (snd (post_login req w)) = db w
  /\ db (snd (post_logout req w)) = db w
  /\ db (snd (run_chain [IsAuthenticated] get_user req w)) = db w
  /\ db (snd (run_chain [IsAuthenticated; IsAdmin] get_admin req w)) = db w.
Proof.
  assert (Ha : forall r w0, db (snd (isAuthenticated r w0)) = db w0)
    by (intros r w0; apply isAuthenticated_same_db).
  split; [apply Ha|].
  split; [apply (steps_post_login same_db same_db_refl same_db_trans same_db_db)|].
  split; [reflexivity|].
  split.
  - cbn [run_chain run_middleware]. unfold bind. specialize (Ha req w).
    destruct (isAuthenticated req w) as [[[resp|req']|e] w']; exact Ha.
  - cbn [run_chain run_middleware]. unfold bind. specialize (Ha req w).
    destruct (isAuthenticated req w) as [[[resp|req']|e] w']; try exact Ha.
    unfold ret. destruct (isAdmin req'); exact Ha.
Qed.

End TableFacts.

Lemma createUser_preserves_constraints_witness :
  db_ok (db (snd (createUser (mkInsertUser "Dan" "dan@example.com" "5550000004" "h" None)
                    sample_world))).
Proof.
  apply createUser_preserves_constraints. exact sample_db_ok.
Defined.

Lemma post_register_preserves_constraints_witness :
  db_ok (db (snd (post_register (request_with None carol_form) sample_world))).
Proof.
  apply (post_register_preserves_constraints (P := ref_platform)). exact sample_db_ok.
Defined.

(** ** Sessions: from a cookie to the user *)


Lemma find_by_unique_id (l : list User) (u : User) :
  NoDup (map user_id l) -> In u l ->
  find (fun x => user_id x =? user_id u) l = Some u.
Proof.
  induction l as [|a l IH]; cbn [map In find]; intros Hnd Hin; [destruct Hin|].
  inversion Hnd as [|? ? Ha Hl]; subst.
  destruct Hin as [->|Hin].
  - now rewrite Z.eqb_refl.
  - destruct (Z.eqb_spec (user_id a) (user_id u)) as [E|_]; [|now apply IH].
    exfalso. apply Ha. rewrite E. now apply in_map.
Qed.

Section SessionFacts.

Context {P : Platform}.

Lemma generateToken_nonempty (now uid : Z) :
  String.eqb (generateToken now uid) "" = false.
Proof. reflexivity. Qed.

(** The gate on a cookie issued for [u] at [issued], checked in world [w]. *)
Lemma isAuthenticated_issued (w : World) (issued : Z) (u : User) (payload : JsValue)
    (attached : option User) :
  db_fault (db w) = None ->
  now_seconds w < issued + expiresIn_7d ->
  find (fun x => user_id x =? user_id u) (users (db w)) = Some u ->
  isAuthenticated (mkRequest (Some (generateToken issued (user_id u))) payload attached) w
  = (Ok (Next (mkRequest (Some (generateToken issued (user_id u))) payload (Some u))),
     log_event (EvQuery "getUserById") w).
Proof.
  intros Hf Ht Hu. rewrite isAuthenticated_run. cbn [cookie_token].
  rewrite generateToken_nonempty, verifyToken_generateToken_at.
  destruct (Z.leb_spec (issued + expiresIn_7d) (now_seconds w)) as [H|_]; [lia|].
  cbn [claim_id]. now rewrite Hf, Hu.
Qed.


(** X6: after a successful login, [GET /api/auth/user] with the cookie the
    login set answers 200 with the user who logged in. *)
Theorem login_then_current_user (req : Request) (w : World) (c : LoginCredentials)
    (u : User) (r1 : Response) (w1 : World) (ms : Z) (payload : JsValue) :
  loginSchema (req_body req) = (Some c, []) ->
  db_fault (db w) = None ->
  db_ok (db w) ->
  find (fun x => String.eqb (user_email x) (cred_email c)) (users (db w)) = Some u ->
  bcrypt_compare (cred_password c) (user_password u) = true ->
  post_login req w = (Ok r1, w1) ->
  ms / 1000 < now_seconds w + expiresIn_7d ->
  fst (run_chain [IsAuthenticated] get_user
         (request_with (apply_cookies None r1) payload) (at_time ms w1))
  = Ok (mkResponse 200 [] (BUser (Some u))).
Proof.
  intros Hv Hf (_ & Hnd & _) Hu Hc Hr Ht.
  rewrite (post_login_valid req w c Hv), (login_ok c w u) in Hr by assumption.
  injection Hr as <- <-.
  cbn [apply_cookies set_cookies fold_left apply_cookie snd fst].
  change (String.eqb "token" "token") with true. cbv iota.
  unfold request_with. cbn [run_chain run_middleware]. unfold bind.
  rewrite isAuthenticated_issued.
  - reflexivity.
  - exact Hf.
  - exact Ht.
  - cbn [at_time db]. apply find_by_unique_id; [assumption|].
    apply find_some in Hu. apply Hu.
Qed.

(** X7: after [logout], a request made with the resulting cookie state is
    turned away by [GET /api/auth/user] with 401, whatever cookie the client
    held before and whatever the store contains. *)
Theorem logout_then_unauthorized (req : Request) (w : World) (jar : option string)
    (payload : JsValue) :
  forall r1 w1, post_logout req w = (Ok r1, w1) ->
  run_chain [IsAuthenticated] get_user (request_with (apply_cookies jar r1) payload) w1
  = (Ok unauthorized, w1).
Proof.
  intros r1 w1 [= <- <-].
  cbn [run_chain run_middleware]. unfold bind. now rewrite isAuthenticated_run.
Qed.

Lemma isAuthenticated_next_inv (req : Request) (w : World)
    (req' : Request) (w' : World) :
  isAuthenticated req w = (Ok (Next req'), w') ->
  exists c u,
    token_decodes w req c
    /\ req_user req' = Some u
    /\ In u (users (db w))
    /\ user_id u = claim_id c
    /\ cookie_token req' = cookie_token req
    /\ req_body req' = req_body req.
Proof.
  rewrite isAuthenticated_run. unfold token_decodes.
  destruct (cookie_token req) as [token|] eqn:Hc; [|discriminate].
  destruct (String.eqb token ""); [discriminate|].
  destruct (verifyToken (now_seconds w) token) as [c|] eqn:Hv; [|discriminate].
  destruct (db_fault (db w)); [discriminate|].
  destruct (find _ (users (db w))) as [u|] eqn:Hu; [|discriminate].
  intros [= <- <-]. exists c, u.
  apply find_some in Hu as [Hin Hid].
  cbn [attach_user req_user cookie_token req_body].
  repeat split; eauto. now apply Z.eqb_eq.
Qed.

(** X8: a user attached by [isAuthenticated] always comes from the store: it
    is the row whose id the verified token carries, never something the
    incoming request already claimed in [req.user]. *)
Theorem attached_user_comes_from_store (req : Request) (w : World)
    (req' : Request) (w' : World) :
  isAuthenticated req w = (Ok (Next req'), w') ->
  exists c u,
    token_decodes w req c
    /\ req_user req' = Some u
    /\ In u (users (db w))
    /\ user_id u = claim_id c
    /\ cookie_token req' = cookie_token req
    /\ req_body req' = req_body req.
Proof. apply isAuthenticated_next_inv. Qed.

End SessionFacts.


Lemma login_then_current_user_witness :
  let req := request_with None (login_form "alice@example.com" "correct horse") in
  let r1 := mkResponse 200
              [SetCookie "token" (generateToken 1000 1) token_cookie_options]
              (BUserField alice) in
  fst (run_chain [IsAuthenticated] get_user
         (request_with (apply_cookies None r1) JUndefined)
         (at_time 86400000 (snd (post_login req sample_world))))
  = Ok (mkResponse 200 [] (BUser (Some alice))).
Proof.
  intros req r1.
  apply (login_then_current_user (P := ref_platform) req sample_world
           (mkLoginCredentials "alice@example.com" "correct horse")
           alice r1 (snd (post_login req sample_world)) 86400000 JUndefined);
    try (vm_compute; reflexivity).
  exact sample_db_ok.
Defined.

Lemma logout_then_unauthorized_witness :
  run_chain [IsAuthenticated] get_user
    (request_with
       (apply_cookies (Some (generateToken 1000 1))
          (mkResponse 200 [ClearCookie "token"] (BMessage "Logged out successfully")))
       JUndefined) sample_world
  = (Ok unauthorized, sample_world).
Proof.
  apply (logout_then_unauthorized (P := ref_platform)
           (request_with (Some (generateToken 1000 1)) JUndefined) sample_world).
  reflexivity.
Defined.

Lemma attached_user_comes_from_store_witness :
  exists c u,
    token_decodes sample_world
      (mkRequest (Some (generateToken 1000 1)) JUndefined (Some root)) c
    /\ u = alice /\ user_id u = claim_id c.
Proof.
  destruct (attached_user_comes_from_store (P := ref_platform)
              (mkRequest (Some (generateToken 1000 1)) JUndefined (Some root))
              sample_world
              (mkRequest (Some (generateToken 1000 1)) JUndefined (Some alice))
              (log_event (EvQuery "getUserById") sample_world))
    as (c & u & H1 & H2 & _ & H3 & _).
  - vm_compute. reflexivity.
  - exists c, u. cbn [req_user] in H2. injection H2 as <-. auto.
Defined.

(** ** What reaches a protected handler *)

Section Reach.

Context {P : Platform}.

(** X9: on every admin-protected route of the table, a request either is
    answered 401 or 403 by the gates without any write to the database, or
    goes on to the rest of the chain carrying a user who is a row of the
    users table with [isAdmin] set. *)
Theorem admin_routes_reach_handler_as_admin (r : Route)
    (handler : Request -> M Response) (req : Request) (w : World) :
  In r registerRoutes -> admin_protected r ->
  (exists resp w',
     run_chain (route_chain r) handler req w = (Ok resp, w')
     /\ (status resp = 401 \/ status resp = 403)
     /\ db w' = db w)
  \/ (exists rest u req' w',
        route_chain r = IsAuthenticated :: IsAdmin :: rest
        /\ In u (users (db w))
        /\ user_isAdmin u = true
        /\ req_user req' = Some u
        /\ db w' = db w
        /\ run_chain (route_chain r) handler req w = run_chain rest handler req' w').
Proof.
  intros Hin Hadm.
  destruct (admin_chain_shape r Hin Hadm) as (rest & Hshape). rewrite Hshape.
  cbn [run_chain run_middleware]. unfold bind at 1.
  pose proof (isAuthenticated_same_db req w) as Hdb.
  destruct (isAuthenticated req w) as [[[resp|req1]|e] w1] eqn:Hgate; cbn [snd] in Hdb.
  - left. exists resp, w1. split; [reflexivity|]. split; [|exact Hdb].
    left. rewrite isAuthenticated_run in Hgate.
    destruct (cookie_token req) as [token|]; [|now injection Hgate as <- _].
    destruct (String.eqb token ""); [now injection Hgate as <- _|].
    destruct (verifyToken (now_seconds w) token); [|now injection Hgate as <- _].
    cbv zeta in Hgate.
    destruct (db_fault (db w)); [now injection Hgate as <- _|].
    destruct (find _ (users (db w))); [discriminate|now injection Hgate as <- _].
  - destruct (isAuthenticated_next_inv req w req1 w1 Hgate)
      as (c & u & _ & Hu & Hinu & _).
    unfold bind, ret. rewrite isAdmin_cases, Hu.
    destruct (user_isAdmin u) eqn:Ha.
    + right. exists rest, u, req1, w1. repeat split; auto.
      cbn [run_chain run_middleware]. unfold bind, ret.
      now rewrite Hgate, isAdmin_cases, Hu, Ha.
    + left. exists forbidden, w1. split; [reflexivity|]. split; [now right|exact Hdb].
  - exfalso. destruct (isAuthenticated_total req w) as (r0 & w0 & H). congruence.
Qed.

End Reach.

Lemma admin_routes_reach_handler_as_admin_witness :
  let r := mkRoute GET "/api/auth/admin" [IsAuthenticated; IsAdmin] in
  let req := request_with (Some (generateToken 1000 2)) JUndefined in
  (exists resp w',
     run_chain (route_chain r) get_admin req sample_world = (Ok resp, w')
     /\ (status resp = 401 \/ status resp = 403)
     /\ db w' = db sample_world)
  \/ (exists rest u req' w',
        route_chain r = IsAuthenticated :: IsAdmin :: rest
        /\ In u (users (db sample_world))
        /\ user_isAdmin u = true
        /\ req_user req' = Some u
        /\ db w' = db sample_world
        /\ run_chain (route_chain r) get_admin req sample_world
           = run_chain rest get_admin req' w').
Proof.
  intros r req.
  apply (admin_routes_reach_handler_as_admin (P := ref_platform) r get_admin req
           sample_world).
  - unfold registerRoutes, authRoutes. cbn. auto 10.
  - unfold admin_protected. cbn. auto.
Defined.

(** ** Every answer of login and registration *)

Section Answers.

Context {P : Platform}.

Lemma zod_string_shape (checks : list StringCheck) (path : list string) (v : JsValue) :
  fst (zod_string checks path v) = None -> snd (zod_string checks path v) <> [].
Proof. destruct v; cbn [zod_string fst snd]; discriminate. Qed.

(** A schema never aborts without naming an issue. *)
Lemma loginSchema_aborts_with_issue (b : JsValue) : loginSchema b <> (None, []).
Proof.
  unfold loginSchema. destruct b; try discriminate.
  pose proof (zod_string_shape [email_check "Please enter a valid email address"]
                ["email"] (get_field "email" fields)) as He.
  pose proof (zod_string_shape [mkCheck too_small (min_length 1) "Password is required"]
                ["password"] (get_field "password" fields)) as Hw.
  destruct (zod_string _ ["email"] _) as [[e|] ie];
    destruct (zod_string _ ["password"] _) as [[pw|] iw]; cbn [fst snd] in *;
    try discriminate; intros [= H]; apply app_eq_nil in H as [H1 H2];
    try (now apply He); now apply Hw.
Qed.

Lemma registerUserSchema_aborts_with_issue (b : JsValue) :
  registerUserSchema b <> (None, []).
Proof.
  unfold registerUserSchema, registerUser_object, zod_refine.
  destruct b; try discriminate.
  pose proof (zod_string_shape [] ["fullName"] (get_field "fullName" fields)) as H1.
  pose proof (zod_string_shape [email_check "Please enter a valid email address"]
                ["email"] (get_field "email" fields)) as H2.
  pose proof (zod_string_shape
                [mkCheck invalid_string phone_regex "Phone number must be 10 digits"]
                ["phone"] (get_field "phone" fields)) as H3.
  pose proof (zod_string_shape
                [mkCheck too_small (min_length 8) "Password must be at least 8 characters"]
                ["password"] (get_field "password" fields)) as H4.
  pose proof (zod_string_shape [] ["confirmPassword"]
                (get_field "confirmPassword" fields)) as H5.
  destruct (zod_string _ ["fullName"] _) as [[x1|] i1];
    destruct (zod_string _ ["email"] _) as [[x2|] i2];
    destruct (zod_string _ ["phone"] _) as [[x3|] i3];
    destruct (zod_string _ ["password"] _) as [[x4|] i4];
    destruct (zod_string _ ["confirmPassword"] _) as [[x5|] i5];
    cbn [fst snd] in *; try discriminate;
    intros [= H]; repeat (apply app_eq_nil in H as [? H]);
    first [now apply H1 | now apply H2 | now apply H3 | now apply H4 | now apply H5].
Qed.

Lemma post_login_invalid (req : Request) (w : World) (o : option LoginCredentials)
    (i : ZodIssue) (issues : list ZodIssue) :
  loginSchema (req_body req) = (o, i :: issues) ->
  post_login req w
  = (Ok (mkResponse 400 [] (BErrors "Validation error" (i :: issues))), w).
Proof.
  intros Hv. unfold post_login, try_catch, bind. rewrite Hv. now destruct o.
Qed.

(** X10: [POST /login] answers 200, 400 or 401 and nothing else.  It sets
    the token cookie only with the 200, and only when the body passed
    [loginSchema], the e-mail is that of a stored user and bcrypt accepted the
    password against that user's hash; the cookie then holds a token that
    verifies to the user's id, is HTTP-only and lives as long as the token. *)
Theorem post_login_answers (req : Request) (w : World) (resp : Response) (w' : World) :
  post_login req w = (Ok resp, w') ->
  (status resp = 200
   /\ exists c u token claims,
        loginSchema (req_body req) = (Some c, [])
        /\ find (fun x => String.eqb (user_email x) (cred_email c)) (users (db w)) = Some u
        /\ bcrypt_compare (cred_password c) (user_password u) = true
        /\ body resp = BUserField u
        /\ set_cookies resp = [SetCookie "token" token token_cookie_options]
        /\ verifyToken (now_seconds w) token = Some claims
        /\ claim_id claims = user_id u
        /\ httpOnly token_cookie_options = true
        /\ maxAge token_cookie_options = 1000 * expiresIn_7d)
  \/ (status resp = 400 /\ set_cookies resp = []
      /\ exists i issues, body resp = BErrors "Validation error" (i :: issues))
  \/ (status resp = 401 /\ set_cookies resp = []
      /\ exists message, body resp = BMessage message).
Proof.
  destruct (loginSchema (req_body req)) as [o issues] eqn:Hv.
  destruct issues as [|i issues].
  2:{ rewrite (post_login_invalid req w o i issues Hv). intros [= <- <-].
      right. left. cbn [status set_cookies body]. eauto. }
  destruct o as [c|]; [|now elim (loginSchema_aborts_with_issue (req_body req))].
  rewrite (post_login_valid req w c Hv).
  destruct (db_fault (db w)) as [msg|] eqn:Hf.
  { rewrite (login_fault c w msg Hf). intros [= <- <-].
    right. right. cbn [status set_cookies body json_message]. eauto. }
  destruct (find (fun x => String.eqb (user_email x) (cred_email c)) (users (db w)))
    as [u|] eqn:Hu.
  2:{ rewrite (login_unknown_email c w Hf Hu). intros [= <- <-].
      right. right. cbn [status set_cookies body json_message]. eauto. }
  destruct (bcrypt_compare (cred_password c) (user_password u)) eqn:Hc.
  - rewrite (login_ok c w u Hf Hu Hc). intros [= <- <-]. left.
    split; [reflexivity|].
    exists c, u, (generateToken (now_seconds w) (user_id u)),
      (mkClaims (user_id u) (now_seconds w) (now_seconds w + expiresIn_7d)).
    repeat split; try assumption. apply verifyToken_fresh.
  - rewrite (login_wrong_password c w u Hf Hu Hc). intros [= <- <-].
    right. right. cbn [status set_cookies body json_message]. eauto.
Qed.

End Answers.

Lemma post_login_answers_witness :
  let req := request_with None (login_form "alice@example.com" "correct horse") in
  let resp := mkResponse 200
                [SetCookie "token" (generateToken 1000 1) token_cookie_options]
                (BUserField alice) in
  status resp = 200 \/ status resp = 400 \/ status resp = 401.
Proof.
  intros req resp.
  assert (Hr : post_login req sample_world = (Ok resp, snd (post_login req sample_world)))
    by (vm_compute; reflexivity).
  destruct (post_login_answers (P := ref_platform) req sample_world resp
              (snd (post_login req sample_world)) Hr)
    as [[H _]|[[H _]|[H _]]]; auto.
Defined.

Section RegisterAnswers.

Context {P : Platform}.

Lemma register_inserted (v : RegisterUser) (w : World) :
  db_fault (db w) = None ->
  violated_constraint (users (db w)) (registered_row v w) = None ->
  register v w
  = (Ok (registered_row v w, generateToken (now_seconds w) (user_id (registered_row v w))),
     mkWorld (mkDb (users (db w) ++ [registered_row v w])%list (users_id_seq (db w) + 1)
                (db_fault (db w)))
       (now_ms w) (N.succ (seed w))
       (trace w ++ [EvBcryptHash; EvQuery "createUser"])%list).
Proof.
  intros Hf Hc.
  unfold register, try_catch, bind at 1, hashPassword. unfold bind at 1.
  rewrite createUser_ok; [|exact Hf|exact Hc].
  unfold bind, get_world, ret, now_seconds.
  cbn [inserted_row db now_ms seed trace log_event ins_fullName ins_email ins_phone
       ins_password ins_isAdmin users_id_seq user_id registered_row].
  now rewrite <- app_assoc.
Qed.

Lemma register_refused (v : RegisterUser) (w : World) (c : string) :
  db_fault (db w) = None ->
  violated_constraint (users (db w)) (registered_row v w) = Some c ->
  exists w',
    register v w = (Throw (JsError "Failed to register user"), w')
    /\ users (db w') = users (db w).
Proof.
  intros Hf Hc.
  unfold register, try_catch, bind at 1, hashPassword. unfold bind at 1.
  rewrite createUser_violation with (c := c); [|exact Hf|exact Hc].
  unfold bind, console_error, emit, throw. eexists. split; reflexivity.
Qed.

(** X11: [POST /register] answers 201, 400 or 500 and nothing else.  With
    the 201 exactly one row, not an administrator, has been appended to the
    users table and the token cookie holds a token that verifies to its id;
    with a 400 or a 500 the table is unchanged and no cookie is set. *)
Theorem post_register_answers (req : Request) (w : World) (resp : Response) (w' : World) :
  post_register req w = (Ok resp, w') ->
  (status resp = 201
   /\ exists v u token claims,
        registerUserSchema (req_body req) = (Some v, [])
        /\ users (db w') = (users (db w) ++ [u])%list
        /\ user_isAdmin u = false
        /\ user_email u = reg_email v
        /\ body resp = BUserField u
        /\ set_cookies resp = [SetCookie "token" token token_cookie_options]
        /\ verifyToken (now_seconds w) token = Some claims
        /\ claim_id claims = user_id u)
  \/ ((status resp = 400 \/ status resp = 500)
      /\ users (db w') = users (db w)
      /\ set_cookies resp = []).
Proof.
  destruct (registerUserSchema (req_body req)) as [o issues] eqn:Hv.
  destruct issues as [|i issues].
  2:{ rewrite (post_register_invalid req w o i issues Hv). intros [= <- <-].
      right. cbn [status set_cookies]. auto. }
  destruct o as [v|]; [|now elim (registerUserSchema_aborts_with_issue (req_body req))].
  destruct (db_fault (db w)) as [msg|] eqn:Hf.
  { rewrite (post_register_fault req w v msg Hv Hf). intros [= <- <-].
    right. cbn [status set_cookies json_message db]. auto. }
  destruct (find (fun u => String.eqb (user_email u) (reg_email v)) (users (db w)))
    as [u0|] eqn:Hu.
  { rewrite (post_register_duplicate req w v u0 Hv Hf Hu). intros [= <- <-].
    right. cbn [status set_cookies json_message db log_event]. auto. }
  unfold post_register, try_catch, bind at 1. rewrite Hv.
  cbn [zod_parse]. unfold ret at 1, bind at 1.
  rewrite getUserByEmail_ok, Hu by assumption. unfold bind at 1.
  destruct (violated_constraint (users (db w)) (registered_row v w)) as [c|] eqn:Hc.
  - destruct (register_refused v (log_event (EvQuery "getUserByEmail") w) c)
      as (w1 & Hr & Hw1); [exact Hf|exact Hc|].
    rewrite Hr. unfold bind, console_error, emit, ret. intros [= <- <-].
    right. cbn [status set_cookies json_message db log_event]. auto.
  - rewrite (register_inserted v (log_event (EvQuery "getUserByEmail") w));
      [|exact Hf|exact Hc].
    unfold ret. intros [= <- <-]. left. split; [reflexivity|].
    exists v, (registered_row v w),
      (generateToken (now_seconds w) (user_id (registered_row v w))),
      (mkClaims (user_id (registered_row v w)) (now_seconds w)
         (now_seconds w + expiresIn_7d)).
    repeat split. apply verifyToken_fresh.
Qed.

End RegisterAnswers.

Lemma post_register_answers_witness :
  let req := request_with None broken_form in
  let resp := mkResponse 400 []
                (BErrors "Validation error"
                   (string_payload_issues "bad" "12" "short" "other")) in
  (status resp = 400 \/ status resp = 500)
  /\ users (db sample_world) = users (db sample_world)
  /\ set_cookies resp = [].
Proof.
  intros req resp.
  assert (Hr : post_register req sample_world = (Ok resp, sample_world))
    by (vm_compute; reflexivity).
  destruct (post_register_answers (P := ref_platform) req sample_world resp
              sample_world Hr) as [[H _]|H].
  - discriminate H.
  - exact H.
Defined.

(** ** What the schemas accept *)

Section SchemaAcceptance.

Context {P : Platform}.

Lemma zod_string_some (checks : list StringCheck) (path : list string) (v : JsValue)
    (s : string) (issues : list ZodIssue) :
  zod_string checks path v = (Some s, issues) ->
  v = JString s /\ issues = run_checks checks path s.
Proof.
  destruct v; cbn [zod_string]; try discriminate.
  intros [= -> <-]. auto.
Qed.

Lemma run_one_check (c : StringCheck) (path : list string) (s : string) :
  run_checks [c] path s = [] <-> check_test c s = true.
Proof.
  unfold run_checks. cbn [flat_map]. destruct (check_test c s); cbn [app].
  - tauto.
  - split; discriminate.
Qed.

(** X12: [registerUserSchema] accepts a body exactly when it is an object
    whose five form fields are strings, the e-mail matches the e-mail
    pattern, the phone is ten digits, the password has at least eight
    characters and equals the confirmation; the data it returns are those
    five strings. *)
Theorem registerUserSchema_accepts_exactly (b : JsValue) (v : RegisterUser) :
  registerUserSchema b = (Some v, [])
  <-> exists fields,
        b = JObject fields
        /\ get_field "fullName" fields = JString (reg_fullName v)
        /\ get_field "email" fields = JString (reg_email v)
        /\ get_field "phone" fields = JString (reg_phone v)
        /\ get_field "password" fields = JString (reg_password v)
        /\ get_field "confirmPassword" fields = JString (reg_confirmPassword v)
        /\ is_email (reg_email v) = true
        /\ phone_regex (reg_phone v) = true
        /\ (8 <= String.length (reg_password v))%nat
        /\ reg_password v = reg_confirmPassword v.
Proof.
  split.
  - unfold registerUserSchema, registerUser_object, zod_refine.
    destruct b; try discriminate.
    destruct (zod_string _ ["fullName"] _) as [[x1|] i1] eqn:E1;
      destruct (zod_string _ ["email"] _) as [[x2|] i2] eqn:E2;
      destruct (zod_string _ ["phone"] _) as [[x3|] i3] eqn:E3;
      destruct (zod_string _ ["password"] _) as [[x4|] i4] eqn:E4;
      destruct (zod_string _ ["confirmPassword"] _) as [[x5|] i5] eqn:E5;
      cbn [fst snd]; try discriminate.
    intros [= <- H].
    apply zod_string_some in E1 as [F1 ->], E2 as [F2 ->], E3 as [F3 ->],
      E4 as [F4 ->], E5 as [F5 ->].
    cbn [reg_password reg_confirmPassword reg_email reg_phone reg_fullName] in *.
    apply app_eq_nil in H as [H Hr].
    apply app_eq_nil in H as [_ H].
    apply app_eq_nil in H as [He H].
    apply app_eq_nil in H as [Hp H].
    apply app_eq_nil in H as [Hw _].
    apply run_one_check in He, Hp, Hw. cbn [email_check check_test] in He, Hp, Hw.
    exists fields. repeat split; try assumption.
    + now apply Nat.leb_le.
    + destruct (String.eqb_spec x4 x5); [assumption|discriminate].
  - intros (fields & -> & H1 & H2 & H3 & H4 & H5 & He & Hp & Hl & Hc).
    rewrite (registerUserSchema_strings fields _ _ _ _ _ H1 H2 H3 H4 H5).
    unfold string_payload_issues, min_length. rewrite He, Hp.
    apply Nat.leb_le in Hl. rewrite Hl.
    rewrite (proj2 (String.eqb_eq _ _) Hc). cbn [app]. now destruct v.
Qed.

(** X13: [loginSchema] accepts a body exactly when it is an object whose
    [email] is a string matching the e-mail pattern and whose [password] is a
    non-empty string. *)
Theorem loginSchema_accepts_exactly (b : JsValue) (c : LoginCredentials) :
  loginSchema b = (Some c, [])
  <-> exists fields,
        b = JObject fields
        /\ get_field "email" fields = JString (cred_email c)
        /\ get_field "password" fields = JString (cred_password c)
        /\ is_email (cred_email c) = true
        /\ cred_password c <> "".
Proof.
  split.
  - unfold loginSchema. destruct b; try discriminate.
    destruct (zod_string _ ["email"] _) as [[x1|] i1] eqn:E1;
      destruct (zod_string _ ["password"] _) as [[x2|] i2] eqn:E2;
      cbn [fst snd]; try discriminate.
    intros [= <- H].
    apply zod_string_some in E1 as [F1 ->], E2 as [F2 ->].
    apply app_eq_nil in H as [Ha Hb].
    apply run_one_check in Ha, Hb. cbn [email_check check_test] in Ha, Hb.
    exists fields. cbn [cred_email cred_password]. repeat split; try assumption.
    intros ->. discriminate Hb.
  - intros (fields & -> & H1 & H2 & He & Hp).
    unfold loginSchema. rewrite H1, H2. cbn [zod_string fst snd].
    assert (Ha : run_checks [email_check "Please enter a valid email address"]
                   ["email"] (cred_email c) = [])
      by (apply run_one_check; exact He).
    assert (Hb : run_checks [mkCheck too_small (min_length 1) "Password is required"]
                   ["password"] (cred_password c) = []).
    { apply run_one_check. cbn [check_test]. unfold min_length.
      destruct (cred_password c); [congruence|reflexivity]. }
    rewrite Ha, Hb. now destruct c.
Qed.

End SchemaAcceptance.

(** ** Promotion *)

Section Promotion.

Context {P : Platform}.

Lemma setUserAsAdmin_run (uid : Z) (w : World) :
  db_fault (db w) = None ->
  setUserAsAdmin uid w
  = (Ok (option_map (promoted (now_ms w)) (stored_user w uid)),
     mkWorld (mkDb (map (fun u => if user_id u =? uid then promoted (now_ms w) u else u)
                      (users (db w)))
                (users_id_seq (db w)) (db_fault (db w)))
       (now_ms w) (seed w) (trace w ++ [EvQuery "setUserAsAdmin"])%list).
Proof.
  intros Hf. unfold setUserAsAdmin, bind, get_world, db_query.
  rewrite db_log_event, Hf. cbn [log_event db set_db now_ms seed trace].
  f_equal. f_equal. unfold stored_user.
  induction (users (db w)) as [|a l IH]; [reflexivity|].
  cbn [map find]. destruct (Z.eqb_spec (user_id a) uid) as [E|E].
  - cbn [user_id promoted option_map]. apply Z.eqb_eq in E. now rewrite E.
  - apply Z.eqb_neq in E. now rewrite E.
Qed.

Lemma promote_keeps_keys (ms uid : Z) (f : User -> string) (l : list User) :
  (forall u, f (promoted ms u) = f u) ->
  map f (map (fun u => if user_id u =? uid then promoted ms u else u) l) = map f l.
Proof.
  intros Hf. rewrite map_map. apply map_ext. intros u.
  destruct (user_id u =? uid); [apply Hf|reflexivity].
Qed.

Lemma find_promoted (ms uid : Z) (l : list User) (u : User) :
  find (fun x => user_id x =? uid) l = Some u ->
  find (fun x => user_id x =? uid)
    (map (fun x => if user_id x =? uid then promoted ms x else x) l)
  = Some (promoted ms u).
Proof.
  induction l as [|a l IH]; cbn [map find]; [discriminate|].
  destruct (user_id a =? uid) eqn:E.
  - intros [= <-]. cbn [promoted user_id]. now rewrite E.
  - rewrite E. exact IH.
Qed.

(** X14: on a reachable store, and for an id within the range of the
    [integer] column, [setUserAsAdmin] returns nothing and changes no row
    when no user has the id; otherwise it returns that user with the
    administrative flag set, a later [getUserById] sees the flag, every other
    row is kept as it was, no row is added or removed, and the table stays
    well formed. *)
Theorem setUserAsAdmin_promotes_one (uid : Z) (w : World) :
  in_int4 uid ->
  db_fault (db w) = None ->
  exists r w',
    setUserAsAdmin uid w = (Ok r, w')
    /\ List.length (users (db w')) = List.length (users (db w))
    /\ map user_id (users (db w')) = map user_id (users (db w))
    /\ (forall u, In u (users (db w)) -> user_id u <> uid -> In u (users (db w')))
    /\ (stored_user w uid = None -> r = None /\ users (db w') = users (db w))
    /\ (forall u, stored_user w uid = Some u ->
          r = Some (promoted (now_ms w) u)
          /\ stored_user w' uid = Some (promoted (now_ms w) u)
          /\ user_isAdmin (promoted (now_ms w) u) = true)
    /\ (db_ok (db w) -> db_ok (db w')).
Proof.
  intros _ Hf. eexists _, _. split; [now apply setUserAsAdmin_run|].
  cbn [db users users_id_seq].
  set (up := fun u => if user_id u =? uid then promoted (now_ms w) u else u).
  assert (Hids : map user_id (map up (users (db w))) = map user_id (users (db w))).
  { rewrite map_map. apply map_ext. intros u. unfold up.
    now destruct (user_id u =? uid). }
  split; [apply length_map|]. split; [exact Hids|]. split; [|split; [|split]].
  - intros u Hin Hne. apply in_map_iff. exists u. split; [|assumption].
    unfold up. apply Z.eqb_neq in Hne. now rewrite Hne.
  - unfold stored_user. intros Hnone. rewrite Hnone. split; [reflexivity|].
    rewrite <- (map_id (users (db w))) at 2. apply map_ext_in. intros u Hin.
    unfold up. destruct (Z.eqb_spec (user_id u) uid) as [E|_]; [|reflexivity].
    exfalso. eapply find_none in Hnone; [|exact Hin]. cbn beta in Hnone.
    apply Z.eqb_eq in E. congruence.
  - unfold stored_user. intros u Hu. rewrite Hu. split; [reflexivity|].
    split; [|reflexivity]. cbn [db users]. now apply find_promoted.
  - intros (H1 & H2 & H3 & H4). unfold db_ok. cbn [users users_id_seq].
    repeat split.
    + apply Forall_map. eapply Forall_impl; [|exact H1]. cbn beta. intros u Hu.
      unfold up. now destruct (user_id u =? uid).
    + now rewrite Hids.
    + unfold up. rewrite promote_keeps_keys; [assumption|reflexivity].
    + unfold up. rewrite promote_keeps_keys; [assumption|reflexivity].
Qed.

(** X15: a promotion takes effect for tokens already issued: once
    [setUserAsAdmin] has promoted a user, [GET /api/auth/admin] with a token
    issued to that user before the promotion answers 200 with
    [{isAdmin: true}], as long as the token has not expired. *)
Theorem promotion_reaches_existing_tokens (u : User) (w : World) (issued ms : Z)
    (payload : JsValue) :
  db_fault (db w) = None ->
  stored_user w (user_id u) = Some u ->
  ms / 1000 < issued + expiresIn_7d ->
  fst (run_chain [IsAuthenticated; IsAdmin] get_admin
         (request_with (Some (generateToken issued (user_id u))) payload)
         (at_time ms (snd (setUserAsAdmin (user_id u) w))))
  = Ok (mkResponse 200 [] (BIsAdmin true)).
Proof.
  intros Hf Hu Ht.
  rewrite setUserAsAdmin_run by assumption. cbn [snd].
  unfold request_with. cbn [run_chain run_middleware]. unfold bind at 1.
  match goal with
  | |- context [isAuthenticated _ (at_time ms ?w1)] =>
      pose proof (isAuthenticated_issued (at_time ms w1) issued (promoted (now_ms w) u)
                    payload None) as Hgate
  end.
  cbn [promoted user_id] in Hgate. rewrite Hgate.
  - reflexivity.
  - exact Hf.
  - exact Ht.
  - cbn [at_time db users]. now apply find_promoted.
Qed.

End Promotion.

Lemma setUserAsAdmin_promotes_one_witness :
  exists r w',
    setUserAsAdmin 1 sample_world = (Ok r, w')
    /\ r = Some (promoted 1000000 alice)
    /\ map user_id (users (db w')) = [1; 2].
Proof.
  destruct (setUserAsAdmin_promotes_one 1 sample_world)
    as (r & w' & H1 & _ & H2 & _ & _ & H3 & _).
  - unfold in_int4. lia.
  - reflexivity.
  - exists r, w'. split; [exact H1|]. split; [|exact H2].
    apply (H3 alice). reflexivity.
Defined.

Lemma promotion_reaches_existing_tokens_witness :
  fst (run_chain [IsAuthenticated; IsAdmin] get_admin
         (request_with (Some (generateToken 1000 1)) JUndefined)
         (at_time 2000000 (snd (setUserAsAdmin 1 sample_world))))
  = Ok (mkResponse 200 [] (BIsAdmin true)).
Proof.
  apply (promotion_reaches_existing_tokens (P := ref_platform) alice sample_world
           1000 2000000 JUndefined); vm_compute; reflexivity.
Defined.

(** ** Registration followed by login *)

Section RegisterLogin.

Context {P : Platform} {B : BcryptContract P}.


End RegisterLogin.


(** ** What a verified token guarantees *)

Section TokenSoundness.

Context {P : Platform}.

(** X17: whenever [verifyToken] accepts a token at clock [t], the token has
    exactly three dot-separated segments, its header names one of the HMAC
    algorithms, its last segment is the MAC of the first two under
    [JWT_SECRET], the claims returned are those of its payload, and [t] is
    strictly before their expiry. *)
Theorem verifyToken_accepts_only_signed (t : Z) (token : string) (c : Claims) :
  verifyToken t token = Some c ->
  exists header payload a,
    JsString.split "." token = [header; payload; signature a JWT_SECRET header payload]
    /\ alg_of_name header = Some a
    /\ decode_claims payload = Some c
    /\ t < claim_exp c.
Proof.
  unfold verifyToken, jwt_verify.
  destruct (String.eqb token ""); [discriminate|].
  destruct (JsString.split "." token) as [|h [|p [|s [|x l]]]]; try discriminate.
  destruct (alg_of_name h) as [a|] eqn:Ha; [|discriminate].
  destruct (decode_claims p) as [c'|] eqn:Hc; [|discriminate].
  destruct (String.eqb s ""); [discriminate|].
  destruct (String.eqb_spec s (signature a JWT_SECRET h p)) as [->|]; [|discriminate].
  cbn [negb]. destruct (Z.leb_spec (claim_exp c') t); [discriminate|].
  intros [= <-]. exists h, p, a. auto.
Qed.

End TokenSoundness.

Lemma verifyToken_accepts_only_signed_witness :
  exists header payload a,
    JsString.split "." (generateToken 1000 7)
    = [header; payload; signature a JWT_SECRET header payload]
    /\ alg_of_name header = Some a
    /\ decode_claims payload = Some (mkClaims 7 1000 (1000 + expiresIn_7d))
    /\ 1000 < claim_exp (mkClaims 7 1000 (1000 + expiresIn_7d)).
Proof.
  apply (verifyToken_accepts_only_signed (P := ref_platform) 1000 (generateToken 1000 7)).
  vm_compute. reflexivity.
Defined.

(** ** Complaints *)

Module ComplaintFacts.
Import Complaints.

Lemma insert_desc_perm (c : Complaint) (l : list Complaint) :
  Permutation (insert_desc c l) (c :: l).
Proof.
  induction l as [|h t IH]; cbn [insert_desc]; [reflexivity|].
  destruct (newer_or_level c h); [reflexivity|].
  rewrite IH. apply perm_swap.
Qed.

Lemma orderBy_perm (l : list Complaint) : Permutation (orderBy_desc_createdAt l) l.
Proof.
  induction l as [|c l IH]; cbn [orderBy_desc_createdAt fold_right]; [reflexivity|].
  fold (orderBy_desc_createdAt l). rewrite insert_desc_perm. now constructor.
Qed.

Lemma newer_or_level_total (a b : Complaint) :
  newer_or_level a b = false -> newer_or_level b a = true.
Proof.
  unfold newer_or_level.
  destruct (complaint_createdAt a) as [x|], (complaint_createdAt b) as [y|];
    try reflexivity; try discriminate.
  intros H. apply Z.leb_gt in H. apply Z.leb_le. lia.
Qed.

Lemma insert_desc_sorted (c : Complaint) (l : list Complaint) :
  Sorted (fun a b => newer_or_level a b = true) l ->
  Sorted (fun a b => newer_or_level a b = true) (insert_desc c l).
Proof.
  induction l as [|h t IH]; cbn [insert_desc]; intros Hs.
  - repeat constructor.
  - destruct (newer_or_level c h) eqn:E.
    + constructor; [assumption|]. now constructor.
    + inversion Hs as [|? ? Ht Hh]; subst. constructor; [now apply IH|].
      apply newer_or_level_total in E.
      destruct t as [|h' t']; cbn [insert_desc].
      * now constructor.
      * destruct (newer_or_level c h'); constructor; [assumption|].
        now inversion Hh.
Qed.

Lemma orderBy_sorted (l : list Complaint) :
  Sorted (fun a b => newer_or_level a b = true) (orderBy_desc_createdAt l).
Proof.
  induction l as [|c l IH]; cbn [orderBy_desc_createdAt fold_right]; [constructor|].
  now apply insert_desc_sorted.
Qed.

Lemma getComplaints_perm (table : list Complaint) (uid : option Z)
    (status : option string) :
  Permutation (getComplaints table uid status) (filter (wanted uid status) table).
Proof.
  unfold getComplaints, wanted.
  destruct (truthy_number uid), (truthy_string status); cbn [andb orb negb];
    rewrite orderBy_perm.
  - reflexivity.
  - erewrite filter_ext; [reflexivity|]. intros c. cbn beta. now rewrite andb_true_r.
  - reflexivity.
  - clear. induction table as [|c t IH]; cbn [filter]; [reflexivity|now constructor].
Qed.

(** X18: [getComplaints] returns, newest first, exactly the rows of the
    table that match the given user id and status, where an absent or zero
    id and an absent or empty status select nothing out. *)
Theorem getComplaints_selects_and_orders (table : list Complaint) (uid : option Z)
    (status : option string) :
  Permutation (getComplaints table uid status) (filter (wanted uid status) table)
  /\ Sorted (fun a b => newer_or_level a b = true) (getComplaints table uid status).
Proof.
  split; [apply getComplaints_perm|].
  unfold getComplaints.
  destruct (truthy_number uid), (truthy_string status); cbn [andb];
    apply orderBy_sorted.
Qed.

(** X19: behind the authentication gate, [GET /api/complaints] shows a
    user who is not an administrator and whose id is not zero only complaints
    filed under that id, and all of those the status filter lets through; an
    administrator is shown the complaints of every user. *)
Theorem get_complaints_shows_own_only (table : list Complaint) (status : option string)
    (req : Request) (u : User) :
  req_user req = Some u ->
  exists rows,
    get_complaints table None status req = AComplaints rows
    /\ (user_isAdmin u = false -> user_id u <> 0 ->
        forall c, In c rows
                  <-> In c table /\ userId c = user_id u
                      /\ (truthy_string status = true -> eq_status status c = true))
    /\ (user_isAdmin u = true ->
        forall c, In c rows
                  <-> In c table
                      /\ (truthy_string status = true -> eq_status status c = true)).
Proof.
  intros Hu. unfold get_complaints. rewrite Hu.
  eexists. split; [reflexivity|]. split.
  - intros Ha Hid c. rewrite Ha.
    pose proof (getComplaints_perm table (Some (user_id u)) status) as Hp.
    split.
    + intros Hin. apply (Permutation_in _ Hp) in Hin.
      apply filter_In in Hin as [Hin Hw]. unfold wanted in Hw.
      apply andb_true_iff in Hw as [H1 H2]. cbn [truthy_number eq_userId] in H1.
      apply Z.eqb_neq in Hid. rewrite Hid in H1. cbn [negb orb] in H1.
      apply Z.eqb_eq in H1. repeat split; try assumption.
      intros Hs. now rewrite Hs in H2.
    + intros (Hin & Hown & Hs). apply (Permutation_in _ (Permutation_sym Hp)).
      apply filter_In. split; [assumption|]. unfold wanted.
      cbn [truthy_number eq_userId]. apply Z.eqb_eq in Hown. rewrite Hown, orb_true_r.
      cbn [andb]. destruct (truthy_string status); [now apply Hs|reflexivity].
  - intros Ha c. rewrite Ha.
    pose proof (getComplaints_perm table None status) as Hp.
    split.
    + intros Hin. apply (Permutation_in _ Hp) in Hin.
      apply filter_In in Hin as [Hin Hw]. unfold wanted in Hw.
      cbn [truthy_number negb orb andb] in Hw. split; [assumption|].
      intros Hs. now rewrite Hs in Hw.
    + intros (Hin & Hs). apply (Permutation_in _ (Permutation_sym Hp)).
      apply filter_In. split; [assumption|]. unfold wanted.
      cbn [truthy_number negb orb andb].
      destruct (truthy_string status); [now apply Hs|reflexivity].
Qed.

Lemma count_le_length {A} (f : A -> bool) (l : list A) :
  (List.length (filter f l) <= List.length l)%nat.
Proof.
  induction l as [|a l IH]; cbn [filter List.length]; [lia|].
  destruct (f a); cbn [List.length]; lia.
Qed.

Lemma known_status_counts (table : list Complaint) :
  (count_status "pending" table + count_status "in-progress" table
   + count_status "completed" table <= List.length table)%nat
  /\ (Forall (fun c => In (complaint_status c) ["pending"; "in-progress"; "completed"])
        table ->
      (count_status "pending" table + count_status "in-progress" table
       + count_status "completed" table)%nat = List.length table).
Proof.
  unfold count_status.
  induction table as [|c t [IH1 IH2]]; cbn [filter List.length].
  - split; [lia|reflexivity].
  - destruct (String.eqb_spec (complaint_status c) "pending") as [E1|N1];
      destruct (String.eqb_spec (complaint_status c) "in-progress") as [E2|N2];
      destruct (String.eqb_spec (complaint_status c) "completed") as [E3|N3];
      try (rewrite E1 in *; discriminate); try (rewrite E2 in *; discriminate);
      cbn [List.length]; (split; [lia|]);
      intros Hall; inversion Hall as [|? ? Hc Ht]; subst;
      try (specialize (IH2 Ht); lia).
    cbn [In] in Hc. intuition congruence.
Qed.

(** X20: each count of [getComplaintStats] is at most the number of
    complaints at the time of its own query; when no write falls between the
    three queries the counts never add up to more than the number of
    complaints, and add up to exactly that number when every complaint is
    pending, in progress or completed. *)
Theorem getComplaintStats_partitions (t1 t2 t3 : list Complaint) :
  let '(pending, inProgress, completed) := getComplaintStats t1 t2 t3 in
  (pending <= List.length t1 /\ inProgress <= List.length t2
   /\ completed <= List.length t3)%nat
  /\ (t2 = t1 -> t3 = t1 ->
      (pending + inProgress + completed <= List.length t1)%nat
      /\ (Forall (fun c => In (complaint_status c) ["pending"; "in-progress"; "completed"])
            t1 ->
          (pending + inProgress + completed)%nat = List.length t1)).
Proof.
  unfold getComplaintStats. split.
  - unfold count_status. repeat split; apply count_le_length.
  - intros -> ->. apply known_status_counts.
Qed.

(** A status change between the first and the second query is counted
    twice: one complaint, moved from pending to in progress, gives one
    pending and one in progress. *)
Lemma getComplaintStats_counts_a_moved_complaint_twice :
  let c := mkComplaint 1 1 "Broken Swing" "The swing is broken." "Maintenance"
             "Central Park" "pending" (Some []) None (Some 10) (Some 10) in
  let c' := mkComplaint 1 1 "Broken Swing" "The swing is broken." "Maintenance"
              "Central Park" "in-progress" (Some []) None (Some 10) (Some 20) in
  getComplaintStats [c] [c'] [c'] = (1, 1, 0)%nat.
Proof. reflexivity. Qed.

End ComplaintFacts.

Lemma get_complaints_shows_own_only_witness :
  exists rows,
    Complaints.get_complaints Complaints.sample_complaints None None
      (mkRequest None JUndefined (Some alice))
    = Complaints.AComplaints rows
    /\ forall c, In c rows
                 <-> In c Complaints.sample_complaints /\ Complaints.userId c = 1
                     /\ (Complaints.truthy_string None = true ->
                         Complaints.eq_status None c = true).
Proof.
  destruct (ComplaintFacts.get_complaints_shows_own_only Complaints.sample_complaints None
              (mkRequest None JUndefined (Some alice)) alice)
    as (rows & H1 & H2 & _).
  - reflexivity.
  - exists rows. split; [exact H1|]. apply H2; [reflexivity|]. cbn. discriminate.
Defined.

Lemma getComplaintStats_partitions_witness :
  let t := Complaints.sample_complaints in
  (Complaints.count_status "pending" t + Complaints.count_status "in-progress" t
   + Complaints.count_status "completed" t)%nat = List.length t.
Proof.
  intros t.
  pose proof (ComplaintFacts.getComplaintStats_partitions t t t) as H.
  unfold Complaints.getComplaintStats in H.
  destruct H as [_ H]. destruct (H eq_refl eq_refl) as [_ Hall].
  apply Hall. unfold t, Complaints.sample_complaints.
  constructor; [|constructor; [|constructor]]; cbn; auto.
Defined.
